(** * sqlite_fdw: shippability cache, predicate classification, scan
      lifecycle and schema import

    A shallow embedding of [shippable.c] and of the planner, executor and
    schema-import callbacks of [sqlite_fdw.c], followed by the properties
    established about them.

    Conventions:
    - an [Oid] is an unsigned 32-bit number, held in [N]; no arithmetic is
      done on it, only comparisons;
    - a C pointer that may be [NULL] is an [option];
    - a PostgreSQL [List *] is a Rocq [list], [lappend l x] is [l ++ [x]];
    - [ereport(ERROR, ...)] / [elog(ERROR, ...)] is the [Error] result;
    - the host catalog and the SQLite engine are external: they enter as
      [Variable]s of the sections that use them. *)

From stdpp Require Import gmap strings list fin_maps.

(** ** Host (PostgreSQL) basics *)

Module Pg.

Definition Oid := N.

Definition InvalidOid : Oid := 0%N.

Definition OidIsValid (objectId : Oid) : bool := negb (objectId =? InvalidOid)%N.

(** Outcome of a call that may [ereport(ERROR)]. *)
Inductive result (A : Type) : Type :=
| Ok (a : A)
| Error (msg : string).
Arguments Ok {A} a.
Arguments Error {A} msg.

Definition list_member_oid (l : list Oid) (datum : Oid) : bool :=
  existsb (N.eqb datum) l.

Definition lappend {A} (l : list A) (x : A) : list A := l ++ [x].

(** [strcmp]: zero exactly on equal strings, the sign of the first
    difference otherwise. *)
Definition strcmp (s1 s2 : string) : Z :=
  match String.compare s1 s2 with
  | Eq => 0
  | Lt => -1
  | Gt => 1
  end%Z.

End Pg.

Import Pg.

(** ** shippable.c *)

Module Shippable.

(** Hash key for shippability lookups (struct [ShippableCacheKey]). *)
Record ShippableCacheKey : Type := mkKey {
  objid : Oid;      (* function/operator/type OID *)
  classid : Oid;    (* OID of its catalog (pg_proc, etc) *)
  serverid : Oid    (* FDW server we are concerned with *)
}.

#[global] Instance ShippableCacheKey_eq_dec : EqDecision ShippableCacheKey.
Proof. solve_decision. Defined.

#[global] Instance ShippableCacheKey_countable : Countable ShippableCacheKey.
Proof.
  refine (inj_countable'
            (fun k => (objid k, classid k, serverid k))
            (fun t => mkKey t.1.1 t.1.2 t.2) _).
  intros []; reflexivity.
Defined.

(** The part of [SqliteFdwRelationInfo] (sqlite_private.h) that
    shippable.c reads. *)
Record SqliteFdwRelationInfo : Type := {
  shippable_extensions : list Oid   (* OIDs of whitelisted extensions *)
}.

(** The backend-global state of shippable.c: the static
    [ShippableCacheHash] ([None] is [NULL]; an entry maps its key to the
    [shippable] flag), together with an instrumentation log of the
    calls made to [lookup_shippable], oldest first. *)
Record backend : Type := mkBackend {
  ShippableCacheHash : option (gmap ShippableCacheKey bool);
  lookups : list (Oid * Oid)
}.

Definition backend_start : backend :=
  {| ShippableCacheHash := None; lookups := [] |}.

(** [key_of o c] is the key [is_shippable] sets up for object [o] of
    catalog [c]. *)
Definition key_of (objectId classId : Oid) : ShippableCacheKey :=
  {| objid := objectId; classid := classId; serverid := 0%N |}.

(** The table exists and holds an entry for [k]. *)
Definition cached (st : backend) (k : ShippableCacheKey) : Prop :=
  exists h, ShippableCacheHash st = Some h /\ is_Some (h !! k).

(** [hash_seq_search] loop of the callback: every entry reported by the
    scan is removed with [HASH_REMOVE]; a removal that finds nothing is
    "hash table corrupted". *)
Fixpoint flush_entries (entries : list (ShippableCacheKey * bool))
    (h : gmap ShippableCacheKey bool) : result (gmap ShippableCacheKey bool) :=
  match entries with
  | [] => Ok h
  | entry :: rest =>
      match h !! entry.1 with
      | None => Error "hash table corrupted"
      | Some _ => flush_entries rest (delete entry.1 h)
      end
  end.

Definition InvalidateShippableCacheCallback (h : gmap ShippableCacheKey bool)
  : result (gmap ShippableCacheKey bool) :=
  flush_entries (map_to_list h) h.

(** An invalidation of pg_foreign_server reaching this backend: the
    callback runs if [InitializeShippableCache] has registered it, that
    is, if the table exists. *)
Definition syscache_invalidation (st : backend) : result backend :=
  match ShippableCacheHash st with
  | None => Ok st
  | Some h =>
      match InvalidateShippableCacheCallback h with
      | Ok h' => Ok {| ShippableCacheHash := Some h'; lookups := lookups st |}
      | Error msg => Error msg
      end
  end.

(** [InitializeShippableCache]: an empty table (and the callback
    registration, which [syscache_invalidation] reads off the table). *)
Definition InitializeShippableCache : gmap ShippableCacheKey bool := ∅.

Section Catalog.

(** [FirstBootstrapObjectId] of access/transam.h. *)
Variable FirstBootstrapObjectId : Oid.

(** [getExtensionOfObject(classId, objectId)] of catalog/dependency.h:
    the owning extension, or [InvalidOid]. *)
Variable getExtensionOfObject : Oid -> Oid -> Oid.

Definition lookup_shippable (objectId classId : Oid)
    (fpinfo : SqliteFdwRelationInfo) : bool :=
  let extensionOid := getExtensionOfObject classId objectId in
  if OidIsValid extensionOid
     && list_member_oid (shippable_extensions fpinfo) extensionOid
  then true
  else false.

Definition is_builtin (objectId : Oid) : bool :=
  (objectId <? FirstBootstrapObjectId)%N.

(** The catalog lookup is taken not to fire the invalidation callback
    itself; invalidations reach the backend between calls, as
    [syscache_invalidation]. The entry is made after the lookup, as in the
    source. *)
Definition is_shippable (objectId classId : Oid)
    (fpinfo : SqliteFdwRelationInfo) (st : backend) : bool * backend :=
  (* Built-in objects are presumed shippable. *)
  if is_builtin objectId then (true, st)
  else
    (* give up if user hasn't specified any shippable extensions *)
    match shippable_extensions fpinfo with
    | [] => (false, st)
    | _ :: _ =>
        (* Initialize cache if first time through. *)
        let h := match ShippableCacheHash st with
                 | None => InitializeShippableCache
                 | Some h => h
                 end in
        (* Set up cache hash key *)
        let key := {| objid := objectId; classid := classId; serverid := 0%N |} in
        (* See if we already cached the result. *)
        match h !! key with
        | Some shippable =>
            (shippable, {| ShippableCacheHash := Some h; lookups := lookups st |})
        | None =>
            (* Not found in cache, so perform shippability lookup. *)
            let shippable := lookup_shippable objectId classId fpinfo in
            (shippable,
             {| ShippableCacheHash := Some (<[key := shippable]> h);
                lookups := lappend (lookups st) (objectId, classId) |})
        end
    end.

(** A sequence of [is_shippable] calls with no invalidation between
    them; returns the answers and the final backend state. *)
Record call : Type := mkCall {
  call_objectId : Oid;
  call_classId : Oid;
  call_fpinfo : SqliteFdwRelationInfo
}.

Fixpoint run_calls (cs : list call) (st : backend) : list bool * backend :=
  match cs with
  | [] => ([], st)
  | c :: rest =>
      let r := is_shippable (call_objectId c) (call_classId c) (call_fpinfo c) st in
      let rs := run_calls rest r.2 in
      (r.1 :: rs.1, rs.2)
  end.

(** The calls that get past the two early returns. *)
Definition reaches_cache (c : call) : bool :=
  negb (is_builtin (call_objectId c))
  && negb (bool_decide (shippable_extensions (call_fpinfo c) = [])).

End Catalog.

(** *** Name allowlists *)

(** The fields of [Form_pg_proc] read by [is_allowed_name]. *)
Record pg_proc : Type := {
  proname : string;
  pronamespace : Oid
}.

(** The first [len] cells of [array] are compared with [teststr]. *)
Fixpoint is_inarray (teststr : string) (array : list string) (len : nat) : bool :=
  match len, array with
  | S len', a :: array' =>
      if (strcmp teststr a =? 0)%Z then true
      else is_inarray teststr array' len'
  | _, _ => false
  end.

Section ProcCatalog.

(** [PG_CATALOG_NAMESPACE] of catalog/pg_namespace.h. *)
Variable PG_CATALOG_NAMESPACE : Oid.

(** [SearchSysCache1(PROCOID, funcid)]: the pg_proc row, or [None] when
    the tuple is not valid. *)
Variable SearchSysCache1_PROCOID : Oid -> option pg_proc.

Definition is_allowed_name (funcid : Oid) (allowed_names : list string)
    (len : nat) : result bool :=
  match SearchSysCache1_PROCOID funcid with
  | None => Error "cache lookup failed for function"
  | Some procform =>
      let isvalid :=
        if (pronamespace procform =? PG_CATALOG_NAMESPACE)%N
        then is_inarray (proname procform) allowed_names len
        else false in
      Ok isvalid
  end.

Definition is_shippable_agg (funcid : Oid) : result bool :=
  let allowed_names := ["avg"; "average"; "max"; "min"; "sum"] in
  is_allowed_name funcid allowed_names (length allowed_names).

Definition is_shippable_func (funcid : Oid) : result bool :=
  let allowed_names := ["abs"; "coalesce"] in
  is_allowed_name funcid allowed_names (length allowed_names).

Definition is_shippable_op (funcid : Oid) : result bool :=
  let allowed_names := ["avg"; "average"; "max"; "min"; "sum"] in
  is_allowed_name funcid allowed_names (length allowed_names).

End ProcCatalog.

End Shippable.


(** ** The SQLite C API, as sqlite_fdw.c uses it

    The engine is external. Its state is the set of open connection
    handles, the set of live prepared statements and a trace of the API
    calls made so far. What a file contains and whether it can be opened
    are the section variables [sqlite3_open_status] and [engine]. *)

Module Sqlite.

Definition SQLITE_OK : Z := 0.
Definition SQLITE_ERROR : Z := 1.
Definition SQLITE_BUSY : Z := 5.
Definition SQLITE_MISUSE : Z := 21.
Definition SQLITE_RANGE : Z := 25.
Definition SQLITE_ROW : Z := 100.
Definition SQLITE_DONE : Z := 101.

(** A result cell, by what the two accessors used in the source return
    for it: [sqlite3_column_text] ([None] is [NULL]) and
    [sqlite3_column_int]. *)
Record cell : Type := mkCell {
  cell_text : option string;
  cell_int : Z
}.

(** What preparing a query yields: the number of result columns, the
    number of parameter placeholders and the rows that stepping will
    produce. *)
Record prepared : Type := mkPrepared {
  p_ncols : nat;
  p_nparams : nat;
  p_rows : list (list cell)
}.

(** A live statement: its connection, its query result and the number of
    rows already stepped over. *)
Record sqlite3_stmt : Type := mkStmt {
  stmt_db : nat;
  stmt_sql : string;
  stmt_result : prepared;
  stmt_pos : nat
}.

(** API calls, with the handle they were given and the code returned. *)
Inductive api_call : Type :=
| call_open (filename : string) (db : nat) (rc : Z)
| call_close (db : nat) (rc : Z)
| call_prepare (db : nat) (sql : string) (stmt : option nat) (rc : Z)
| call_step (stmt : option nat) (rc : Z)
| call_bind (stmt : option nat) (index : Z) (rc : Z)
| call_finalize (stmt : nat) (rc : Z)
| call_pfree (text : string).

Record world : Type := mkWorld {
  conns : gmap nat string;          (* open connections and their files *)
  stmts : gmap nat sqlite3_stmt;    (* live prepared statements *)
  next_handle : nat;                (* allocator of fresh handles *)
  trace : list api_call             (* oldest call first *)
}.

(** The statement after one more step. *)
Definition stepped (st : sqlite3_stmt) : sqlite3_stmt :=
  mkStmt (stmt_db st) (stmt_sql st) (stmt_result st) (S (stmt_pos st)).

(** Every live statement was handed out by the allocator. *)
Definition handles_allocated (w : world) : Prop :=
  forall h, is_Some (stmts w !! h) -> h < next_handle w.

Definition world_start : world :=
  {| conns := ∅; stmts := ∅; next_handle := 1; trace := [] |}.

Definition log (c : api_call) (w : world) : world :=
  {| conns := conns w; stmts := stmts w; next_handle := next_handle w;
     trace := trace w ++ [c] |}.

(** Code that calls the engine and may [ereport(ERROR)]: it maps the
    world to an outcome and the world it leaves behind. Handles that are
    open when an error is raised stay open. *)
Definition M (A : Type) : Type := world -> result A * world.

#[global] Instance M_ret : MRet M := fun A (a : A) w => (Ok a, w).

#[global] Instance M_bind : MBind M := fun A B (k : A -> M B) (m : M A) w =>
  match m w with
  | (Ok a, w') => k a w'
  | (Error msg, w') => (Error msg, w')
  end.

Definition ereport {A} (msg : string) : M A := fun w => (Error msg, w).

(** [PG_TRY(); body PG_CATCH(); handler; PG_RE_THROW(); PG_END_TRY();] *)
Definition PG_TRY {A} (body : M A) (handler : M unit) : M A :=
  fun w => match body w with
           | (Ok a, w') => (Ok a, w')
           | (Error msg, w') =>
               match handler w' with
               | (Ok _, w'') => (Error msg, w'')
               | (Error msg', w'') => (Error msg', w'')
               end
           end.

Section Engine.

(** Result code of [sqlite3_open] for a file name. *)
Variable sqlite3_open_status : string -> Z.

(** Outcome of compiling a query against the database in a file:
    [None] when the query does not compile. *)
Variable engine : string -> string -> option prepared.

(** [sqlite3_open]: a handle is handed out whether or not the file could
    be opened, and has to be given to [sqlite3_close] in both cases. *)
Definition sqlite3_open (filename : string) : M (Z * nat) :=
  fun w =>
    let db := next_handle w in
    let rc := sqlite3_open_status filename in
    (Ok (rc, db),
     {| conns := <[db := filename]> (conns w); stmts := stmts w;
        next_handle := S db; trace := trace w ++ [call_open filename db rc] |}).

Definition has_statements (db : nat) (w : world) : bool :=
  bool_decide (map_Exists (fun _ s => stmt_db s = db) (stmts w)).

(** [sqlite3_close]: refused with [SQLITE_BUSY], leaving the connection
    open, while the connection has statements that are not finalized;
    [SQLITE_MISUSE] on a handle that is not open (any more). *)
Definition sqlite3_close (db : nat) : M Z :=
  fun w =>
    match conns w !! db with
    | None => (Ok SQLITE_MISUSE, log (call_close db SQLITE_MISUSE) w)
    | Some _ =>
        if has_statements db w
        then (Ok SQLITE_BUSY, log (call_close db SQLITE_BUSY) w)
        else (Ok SQLITE_OK,
              {| conns := delete db (conns w); stmts := stmts w;
                 next_handle := next_handle w;
                 trace := trace w ++ [call_close db SQLITE_OK] |})
    end.

Definition sqlite3_prepare_v2 (db : nat) (sql : string) : M (Z * option nat) :=
  fun w =>
    match conns w !! db with
    | None => (Ok (SQLITE_MISUSE, None),
               log (call_prepare db sql None SQLITE_MISUSE) w)
    | Some filename =>
        match engine filename sql with
        | None => (Ok (SQLITE_ERROR, None),
                   log (call_prepare db sql None SQLITE_ERROR) w)
        | Some p =>
            let s := next_handle w in
            (Ok (SQLITE_OK, Some s),
             {| conns := conns w;
                stmts := <[s := mkStmt db sql p 0]> (stmts w);
                next_handle := S s;
                trace := trace w ++ [call_prepare db sql (Some s) SQLITE_OK] |})
        end
    end.

(** [sqlite3_finalize]: a harmless no-op on [NULL]; [SQLITE_MISUSE] on a
    statement that is not live (any more). *)
Definition sqlite3_finalize (stmt : option nat) : M Z :=
  fun w =>
    match stmt with
    | None => (Ok SQLITE_OK, w)
    | Some s =>
        match stmts w !! s with
        | None => (Ok SQLITE_MISUSE, log (call_finalize s SQLITE_MISUSE) w)
        | Some _ =>
            (Ok SQLITE_OK,
             {| conns := conns w; stmts := delete s (stmts w);
                next_handle := next_handle w;
                trace := trace w ++ [call_finalize s SQLITE_OK] |})
        end
    end.

(** [sqlite3_step]: [SQLITE_ROW] and one row further while rows remain,
    [SQLITE_DONE] after the last one; [SQLITE_MISUSE] on [NULL] or on a
    finalized statement. No caller below steps a statement again after
    [SQLITE_DONE]; the model answers [SQLITE_DONE] again there. *)
Definition sqlite3_step (stmt : option nat) : M Z :=
  fun w =>
    match stmt with
    | None => (Ok SQLITE_MISUSE, log (call_step stmt SQLITE_MISUSE) w)
    | Some s =>
        match stmts w !! s with
        | None => (Ok SQLITE_MISUSE, log (call_step stmt SQLITE_MISUSE) w)
        | Some st =>
            if (stmt_pos st <? length (p_rows (stmt_result st)))%nat
            then (Ok SQLITE_ROW,
                  {| conns := conns w;
                     stmts := <[s := stepped st]> (stmts w);
                     next_handle := next_handle w;
                     trace := trace w ++ [call_step stmt SQLITE_ROW] |})
            else (Ok SQLITE_DONE, log (call_step stmt SQLITE_DONE) w)
        end
    end.

(** The row the statement is positioned on: the last one stepped to. *)
Definition current_row (stmt : option nat) (w : world) : list cell :=
  match stmt ≫= (fun s => stmts w !! s) with
  | Some st =>
      match stmt_pos st with
      | 0 => []
      | S n => default [] (p_rows (stmt_result st) !! n)
      end
  | None => []
  end.

Definition sqlite3_column_count (stmt : option nat) : M nat :=
  fun w => (Ok (default 0 (p_ncols <$> (stmt_result <$> (stmt ≫= (fun s => stmts w !! s))))), w).

Definition sqlite3_column_text (stmt : option nat) (iCol : nat) : M (option string) :=
  fun w => (Ok (current_row stmt w !! iCol ≫= cell_text), w).

Definition sqlite3_column_int (stmt : option nat) (iCol : nat) : M Z :=
  fun w => (Ok (default 0%Z (cell_int <$> current_row stmt w !! iCol)), w).

(** [sqlite3_bind_null], [sqlite3_bind_int], [sqlite3_bind_int64]: only
    the result code matters to the callers. *)
Definition sqlite3_bind (stmt : option nat) (index : Z) : M Z :=
  fun w =>
    let rc :=
      match stmt ≫= (fun s => stmts w !! s) with
      | None => SQLITE_MISUSE
      | Some st =>
          if ((1 <=? index) && (index <=? Z.of_nat (p_nparams (stmt_result st))))%Z
          then SQLITE_OK else SQLITE_RANGE
      end in
    (Ok rc, log (call_bind stmt index rc) w).

Definition pfree (text : string) : M unit :=
  fun w => (Ok tt, log (call_pfree text) w).

(** Rows the statement has still to produce; bounds the [while
    (sqlite3_step(...) == SQLITE_ROW)] loops. *)
Definition rows_left (stmt : option nat) (w : world) : nat :=
  match stmt ≫= (fun s => stmts w !! s) with
  | Some st => length (p_rows (stmt_result st)) - stmt_pos st
  | None => 0
  end.

End Engine.

End Sqlite.


(** ** sqlite_fdw.c *)

Module SqliteFdw.

Import Sqlite.

(** *** Planning: classification of restriction clauses *)

(** [SqliteFdwRelationInfo] as sqlite_fdw.c declares it. The lists hold
    pointers to [RestrictInfo] nodes; a pointer is a [nat]. *)
Record SqliteFdwRelationInfo : Type := mkRelInfo {
  remote_conds : list nat;
  local_conds : list nat;
  attrs_used : gset Z
}.

(** The three lists [sqliteGetForeignPlan] builds from [scan_clauses]. *)
Record plan_lists (Expr : Type) : Type := mkPlanLists {
  plan_remote_conds : list nat;
  plan_remote_exprs : list Expr;
  plan_local_exprs : list Expr
}.
Arguments mkPlanLists {Expr} _ _ _.
Arguments plan_remote_conds {Expr} _.
Arguments plan_remote_exprs {Expr} _.
Arguments plan_local_exprs {Expr} _.

Definition list_member_ptr (l : list nat) (datum : nat) : bool :=
  existsb (Nat.eqb datum) l.

Section Planner.

(** Expression trees of the host. *)
Variable Expr : Type.

(** The planner's memory: the fields [clause] and [pseudoconstant] of the
    [RestrictInfo] node a pointer designates. *)
Variable ri_clause : nat -> Expr.
Variable ri_pseudoconstant : nat -> bool.

(** [is_foreign_expr(root, baserel, expr)], for the relation being
    planned. *)
Variable is_foreign_expr : Expr -> bool.

(** [pull_varattnos(expr, baserel->relid, &set)]: the set with the
    attribute numbers referenced by the expression added. *)
Variable pull_varattnos : Expr -> gset Z -> gset Z.

(** First loop of [sqliteGetForeignRelSize]: classify the condition as
    local or remote. *)
Fixpoint classify_conds (baserestrictinfo : list nat)
    (fpinfo : SqliteFdwRelationInfo) : SqliteFdwRelationInfo :=
  match baserestrictinfo with
  | [] => fpinfo
  | ri :: rest =>
      classify_conds rest
        (if is_foreign_expr (ri_clause ri)
         then {| remote_conds := lappend (remote_conds fpinfo) ri;
                 local_conds := local_conds fpinfo;
                 attrs_used := attrs_used fpinfo |}
         else {| remote_conds := remote_conds fpinfo;
                 local_conds := lappend (local_conds fpinfo) ri;
                 attrs_used := attrs_used fpinfo |})
  end.

(** Second loop: the attributes needed locally. *)
Fixpoint pull_local_attrs (conds : list nat) (attrs : gset Z) : gset Z :=
  match conds with
  | [] => attrs
  | rinfo :: rest => pull_local_attrs rest (pull_varattnos (ri_clause rinfo) attrs)
  end.

(** The part of [sqliteGetForeignRelSize] that fills [fpinfo]:
    [target_attrs] is what [pull_varattnos] finds in
    [baserel->reltarget->exprs]; the query text and the row estimate
    computed afterwards do not touch [fpinfo]. *)
Definition sqliteGetForeignRelSize (target_attrs : gset Z)
    (baserestrictinfo : list nat) : SqliteFdwRelationInfo :=
  let fpinfo := {| remote_conds := []; local_conds := []; attrs_used := target_attrs |} in
  let fpinfo := classify_conds baserestrictinfo fpinfo in
  {| remote_conds := remote_conds fpinfo;
     local_conds := local_conds fpinfo;
     attrs_used := pull_local_attrs (local_conds fpinfo) (attrs_used fpinfo) |}.

(** The [foreach(lc, scan_clauses)] loop of [sqliteGetForeignPlan]. *)
Fixpoint separate_scan_clauses (fpinfo : SqliteFdwRelationInfo)
    (scan_clauses : list nat) (acc : plan_lists Expr) : plan_lists Expr :=
  match scan_clauses with
  | [] => acc
  | rinfo :: rest =>
      separate_scan_clauses fpinfo rest
        (* Ignore any pseudoconstants, they're dealt with elsewhere *)
        (if ri_pseudoconstant rinfo then acc
         else if list_member_ptr (remote_conds fpinfo) rinfo then
           mkPlanLists (lappend (plan_remote_conds acc) rinfo)
                       (lappend (plan_remote_exprs acc) (ri_clause rinfo))
                       (plan_local_exprs acc)
         else if list_member_ptr (local_conds fpinfo) rinfo then
           mkPlanLists (plan_remote_conds acc) (plan_remote_exprs acc)
                       (lappend (plan_local_exprs acc) (ri_clause rinfo))
         else if is_foreign_expr (ri_clause rinfo) then
           mkPlanLists (lappend (plan_remote_conds acc) rinfo)
                       (lappend (plan_remote_exprs acc) (ri_clause rinfo))
                       (plan_local_exprs acc)
         else
           mkPlanLists (plan_remote_conds acc) (plan_remote_exprs acc)
                       (lappend (plan_local_exprs acc) (ri_clause rinfo)))
  end.

(** The clause lists of [sqliteGetForeignPlan]: [plan_remote_conds] goes
    to the WHERE clause of the remote query, [plan_local_exprs] becomes
    the qual of the ForeignScan node. *)
Definition sqliteGetForeignPlan (fpinfo : SqliteFdwRelationInfo)
    (scan_clauses : list nat) : plan_lists Expr :=
  separate_scan_clauses fpinfo scan_clauses (mkPlanLists [] [] []).

End Planner.

(** *** Execution: the scan callbacks *)

(** [SqliteOpt], as [sqliteGetOptions] returns it. *)
Record SqliteOpt : Type := {
  database : string;
  table : string
}.

(** [SQLiteFdwExecutionState]; the per-tuple memory context is not
    represented. *)
Record SQLiteFdwExecutionState : Type := mkExecState {
  db : option nat;
  stmt : option nat;
  query : option string;
  retrieved_attrs : list nat   (* list of target attribute numbers *)
}.

(** [palloc0(sizeof(SQLiteFdwExecutionState))] *)
Definition festate_zero : SQLiteFdwExecutionState :=
  {| db := None; stmt := None; query := None; retrieved_attrs := [] |}.

(** One column of the tuple [BuildTupleFromCStrings] forms. *)
Inductive column_value : Type :=
| ColNull                       (* values[i] == NULL *)
| ColFromText (s : string)      (* the type's input function applied to values[i] *)
| ColReadPastValues.            (* values[i] lies beyond the end of the array *)

(** [BuildTupleFromCStrings(attinmeta, values)] of the host: column [i] of
    the [natts] columns of the relation is read from [values[i]]. *)
Definition BuildTupleFromCStrings (natts : nat) (values : list (option string))
  : list column_value :=
  (fun i => match values !! i with
            | Some (Some s) => ColFromText s
            | Some None => ColNull
            | None => ColReadPastValues
            end) <$> seq 0 natts.

Definition INT8OID : Oid := 20%N.
Definition INT2OID : Oid := 21%N.
Definition INT4OID : Oid := 23%N.

Section Executor.

Variable sqlite3_open_status : string -> Z.
Variable engine : string -> string -> option prepared.

#[local] Abbreviation sqlite3_open := (sqlite3_open sqlite3_open_status).
#[local] Abbreviation sqlite3_prepare_v2 := (sqlite3_prepare_v2 engine).

(** Open the given sqlite3 file, and throw an error if the file couldn't
    be opened. Returns the handle stored through [db]. *)
Definition sqliteOpen (filename : string) : M nat :=
  r ← sqlite3_open filename;
  if negb (r.1 =? SQLITE_OK)%Z
  then ereport "Can't open sqlite database"
  else mret r.2.

(** Prepare the given query. If case of error, close the db and throw an
    error. *)
Definition sqlitePrepare (db : nat) (query : string) : M (option nat) :=
  r ← sqlite3_prepare_v2 db query;
  if negb (r.1 =? SQLITE_OK)%Z
  then _ ← sqlite3_close db; ereport "SQL error during prepare"
  else mret r.2.

Definition cleanup_ (festate : SQLiteFdwExecutionState) : M SQLiteFdwExecutionState :=
  festate ← match stmt festate with
            | Some s =>
                _ ← sqlite3_finalize (Some s);
                mret {| db := db festate; stmt := None; query := query festate;
                        retrieved_attrs := retrieved_attrs festate |}
            | None => mret festate
            end;
  festate ← match db festate with
            | Some d =>
                _ ← sqlite3_close d;
                (* the assignment after the close is festate->stmt = NULL *)
                mret {| db := db festate; stmt := None; query := query festate;
                        retrieved_attrs := retrieved_attrs festate |}
            | None => mret festate
            end;
  match query festate with
  | Some q =>
      _ ← pfree q;
      mret {| db := db festate; stmt := stmt festate; query := None;
              retrieved_attrs := retrieved_attrs festate |}
  | None => mret festate
  end.

(** A runtime parameter after evaluation: its type, its value and whether
    it is null. *)
Record param : Type := {
  ptype : Oid;
  pval : Z;
  isNull : bool
}.

Definition sqlite_bind_param_value (festate : SQLiteFdwExecutionState)
    (index : Z) (p : param) : M unit :=
  rc ← (if isNull p then sqlite3_bind (stmt festate) index
        else if (ptype p =? INT2OID)%N then sqlite3_bind (stmt festate) index
        else if (ptype p =? INT4OID)%N then sqlite3_bind (stmt festate) index
        else if (ptype p =? INT8OID)%N then sqlite3_bind (stmt festate) index
        else mret SQLITE_OK);
  if negb (rc =? SQLITE_OK)%Z
  then _ ← cleanup_ festate; ereport "error while trying to bind param"
  else mret tt.

(** The second loop of [sqlite_bind_param_values], over the evaluated
    parameters, [i] counting from 0. *)
Fixpoint sqlite_bind_param_values (festate : SQLiteFdwExecutionState)
    (params : list param) (i : Z) : M unit :=
  match params with
  | [] => mret tt
  | p :: rest =>
      _ ← sqlite_bind_param_value festate (i + 1) p;
      sqlite_bind_param_values festate rest (i + 1)
  end.

(** [fdw_private] is the pair salted away by [sqliteGetForeignPlan];
    [params] are the values of [fsplan->fdw_exprs]. *)
Definition sqliteBeginForeignScan (opt : SqliteOpt)
    (fdw_private : string * list nat) (params : list param)
  : M SQLiteFdwExecutionState :=
  (* Fetch options and then connect *)
  d ← sqliteOpen (database opt);
  let festate := {| db := Some d; stmt := None; query := Some fdw_private.1;
                    retrieved_attrs := fdw_private.2 |} in
  s ← sqlitePrepare d fdw_private.1;
  let festate := {| db := db festate; stmt := s; query := query festate;
                    retrieved_attrs := retrieved_attrs festate |} in
  (* Bind the parameters to the prepared statement *)
  if (0 <? length params)%nat
  then _ ← sqlite_bind_param_values festate params 0; mret festate
  else mret festate.

(** [for (x = 0; x < sqlite3_column_count(stmt); x++) values[x] = ...],
    run for the [count] indices from [x] on. *)
Fixpoint column_texts (s : option nat) (x count : nat) : M (list (option string)) :=
  match count with
  | 0 => mret []
  | S count' =>
      v ← sqlite3_column_text s x;
      vs ← column_texts s (S x) count';
      mret (v :: vs)
  end.

(** Returns the content of the scan slot: [None] for the cleared slot,
    the stored tuple otherwise. [natts] is the number of columns of the
    foreign table's descriptor. *)
Definition sqliteIterateForeignScan (festate : SQLiteFdwExecutionState)
    (natts : nat) : M (option (list column_value)) :=
  rc ← sqlite3_step (stmt festate);
  if (rc =? SQLITE_ROW)%Z
  then
    n ← sqlite3_column_count (stmt festate);
    values ← column_texts (stmt festate) 0 n;
    mret (Some (BuildTupleFromCStrings natts values))
  else mret None.

(** The body is a single [elog(DEBUG1, ...)]. *)
Definition sqliteReScanForeignScan (festate : SQLiteFdwExecutionState)
  : M SQLiteFdwExecutionState :=
  mret festate.

Definition sqliteEndForeignScan (fdw_state : SQLiteFdwExecutionState)
  : M SQLiteFdwExecutionState :=
  cleanup_ fdw_state.

End Executor.

(** *** IMPORT FOREIGN SCHEMA *)

(** The line feed written [\n] in the C string literals. *)
Definition LF : string :=
  String (Ascii.Ascii false true false true false false false false) EmptyString.

(** [str_tolower] under the C collation: A-Z are mapped to a-z, all other
    bytes are kept. *)
Definition ascii_tolower (c : Ascii.ascii) : Ascii.ascii :=
  let n := Ascii.nat_of_ascii c in
  if (65 <=? n)%nat && (n <=? 90)%nat then Ascii.ascii_of_nat (n + 32) else c.

Fixpoint str_tolower (s : string) : string :=
  match s with
  | EmptyString => EmptyString
  | String c s' => String (ascii_tolower c) (str_tolower s')
  end.

(** [strncmp(s1, s2, n)]: [strcmp] on the first [n] characters. *)
Definition strncmp (s1 s2 : string) (n : nat) : Z :=
  strcmp (String.substring 0 n s1) (String.substring 0 n s2).

(** Translate sqlite type name to postgres compatible one and append it
    to given StringInfo; returns the new content of [str]. *)
Definition sqliteTranslateType (str : string) (typname : string) : string :=
  (* get lowercase typname *)
  let type := str_tolower typname in
  (* try some easy conversion *)
  if (strcmp type "tinyint" =? 0)%Z then str +:+ "smallint"
  else if (strcmp type "mediumint" =? 0)%Z then str +:+ "integer"
  else if (strcmp type "unsigned big int" =? 0)%Z then str +:+ "bigint"
  else if (strcmp type "double" =? 0)%Z then str +:+ "double precision"
  else if (strcmp type "datetime" =? 0)%Z then str +:+ "timestamp"
  else if (strcmp type "nvarchar text" =? 0)%Z then str +:+ "text"
  else if (strcmp type "longvarchar" =? 0)%Z then str +:+ "text"
  else if (strncmp type "text" 4 =? 0)%Z then str +:+ "text"
  else if (strcmp type "blob" =? 0)%Z then str +:+ "bytea"
  else if (strcmp type "integer" =? 0)%Z then str +:+ "bigint"
  (* if original type is compatible, return lowercase value *)
  else str +:+ type.

Inductive ImportForeignSchemaType : Type :=
| FDW_IMPORT_SCHEMA_ALL
| FDW_IMPORT_SCHEMA_LIMIT_TO
| FDW_IMPORT_SCHEMA_EXCEPT.

#[global] Instance ImportForeignSchemaType_eq_dec : EqDecision ImportForeignSchemaType.
Proof. solve_decision. Defined.

(** An option: its name and the text of its argument. *)
Record DefElem : Type := {
  defname : string;
  defarg : string
}.

Definition defGetString (def : DefElem) : string := defarg def.

(** [table_list] holds the [relname] of each [RangeVar]. *)
Record ImportForeignSchemaStmt : Type := {
  server_name : string;
  remote_schema : string;
  local_schema : string;
  list_type : ImportForeignSchemaType;
  table_list : list string;
  options : list DefElem
}.

(** The loop looking for the db filename in the server options; it stops
    at the first [database] option. *)
Fixpoint find_database (server_options : list DefElem) : option string :=
  match server_options with
  | [] => None
  | def :: rest =>
      if (strcmp (defname def) "database" =? 0)%Z then Some (defGetString def)
      else find_database rest
  end.

Section SchemaImport.

Variable sqlite3_open_status : string -> Z.
Variable engine : string -> string -> option prepared.

(** Host functions: [defGetBoolean], [quote_identifier],
    [quote_literal_cstr]. *)
Variable defGetBoolean : DefElem -> result bool.
Variable quote_identifier : string -> string.
Variable quote_literal_cstr : string -> string.

#[local] Abbreviation sqlitePrepare := (sqlitePrepare engine).
#[local] Abbreviation sqliteOpen := (sqliteOpen sqlite3_open_status).

(** Parse statement options; the result is
    [(import_default, import_not_null)]. *)
Fixpoint parse_statement_options (opts : list DefElem)
    (import_default import_not_null : bool) : result (bool * bool) :=
  match opts with
  | [] => Ok (import_default, import_not_null)
  | def :: rest =>
      if (strcmp (defname def) "import_default" =? 0)%Z then
        match defGetBoolean def with
        | Ok b => parse_statement_options rest b import_not_null
        | Error msg => Error msg
        end
      else if (strcmp (defname def) "import_not_null" =? 0)%Z then
        match defGetBoolean def with
        | Ok b => parse_statement_options rest import_default b
        | Error msg => Error msg
        end
      else Error "invalid option"
  end.

(** The items of the [IN (...)] list of the table query. *)
Fixpoint append_table_list (query_tbl : string) (table_list : list string)
    (first_item : bool) : string :=
  match table_list with
  | [] => query_tbl
  | relname :: rest =>
      let query_tbl := if first_item then query_tbl else query_tbl +:+ ", " in
      append_table_list (query_tbl +:+ quote_literal_cstr relname) rest false
  end.

Definition table_query (stmt : ImportForeignSchemaStmt) : string :=
  (* You want all tables, except system tables *)
  let query_tbl := "SELECT name FROM sqlite_master WHERE type = 'table'" in
  let query_tbl := query_tbl +:+ " AND name NOT LIKE 'sqlite_%'" in
  (* Handle LIMIT TO / EXCEPT clauses in IMPORT FOREIGN SCHEMA statement *)
  if bool_decide (list_type stmt = FDW_IMPORT_SCHEMA_LIMIT_TO)
     || bool_decide (list_type stmt = FDW_IMPORT_SCHEMA_EXCEPT)
  then
    let query_tbl := query_tbl +:+ " AND name " in
    let query_tbl := if bool_decide (list_type stmt = FDW_IMPORT_SCHEMA_EXCEPT)
                     then query_tbl +:+ "NOT " else query_tbl in
    let query_tbl := query_tbl +:+ "IN (" in
    let query_tbl := append_table_list query_tbl (table_list stmt) true in
    query_tbl +:+ ")"
  else query_tbl.

(** The column texts read below ([name] of sqlite_master, [name] and
    [type] of table_info) are never [NULL] in SQLite; should the engine
    return [NULL], the model reads the empty string. *)
Definition text_of (t : option string) : string := default "" t.

(** The name read from a row of the table query. *)
Definition table_name (row : list cell) : string := text_of (row !! 0 ≫= cell_text).

(** What one pass through the body of the column loop appends to
    [cft_stmt], for the values read from the current row of [cols]. *)
Definition append_column (import_default import_not_null : bool)
    (cft_stmt : string) (i : nat) (col_name typ_name : option string)
    (notnull : Z) (default_val : option string) : string :=
  let not_null := (notnull =? 1)%Z in
  let cft_stmt := if negb (i =? 0)%nat then cft_stmt +:+ "," +:+ LF
                  else cft_stmt in
  (* table name *)
  let cft_stmt := cft_stmt +:+ quote_identifier (text_of col_name) +:+ " " in
  (* translated datatype *)
  let cft_stmt := sqliteTranslateType cft_stmt (text_of typ_name) in
  let cft_stmt := if not_null && import_not_null
                  then cft_stmt +:+ " NOT NULL" else cft_stmt in
  match default_val with
  | Some d => if import_default then cft_stmt +:+ " DEFAULT " +:+ d else cft_stmt
  | None => cft_stmt
  end.

(** [while (sqlite3_step(cols) == SQLITE_ROW) { ... i++; }]. [fuel] is the
    number of rows [cols] has left, so that with no fuel the step can only
    end the loop. *)
Fixpoint import_columns (fuel : nat) (cols : option nat)
    (import_default import_not_null : bool) (cft_stmt : string) (i : nat) : M string :=
  rc ← sqlite3_step cols;
  match fuel with
  | 0 => mret cft_stmt
  | S fuel' =>
      if (rc =? SQLITE_ROW)%Z then
        col_name ← sqlite3_column_text cols 1;
        typ_name ← sqlite3_column_text cols 2;
        notnull ← sqlite3_column_int cols 3;
        default_val ← sqlite3_column_text cols 4;
        import_columns fuel' cols import_default import_not_null
          (append_column import_default import_not_null cft_stmt i
             col_name typ_name notnull default_val)
          (S i)
      else mret cft_stmt
  end.

(** start building the CFT stmt *)
Definition start_cft_stmt (stmt : ImportForeignSchemaStmt) (tbl_name : string) : string :=
  "CREATE FOREIGN TABLE " +:+ local_schema stmt +:+ "."
  +:+ quote_identifier tbl_name +:+ " (" +:+ LF.

Definition finish_cft_stmt (stmt : ImportForeignSchemaStmt) (tbl_name : string)
    (cft_stmt : string) : string :=
  cft_stmt +:+ LF +:+ ") SERVER " +:+ quote_identifier (server_name stmt) +:+ LF
  +:+ "OPTIONS (table '" +:+ quote_identifier tbl_name +:+ "')".

Definition table_info_query (tbl_name : string) : string :=
  "PRAGMA table_info(" +:+ tbl_name +:+ ")".

(** [while (sqlite3_step(tbls) == SQLITE_ROW) { ... }], with [fuel] the
    number of rows [tbls] has left. The statement [cols] prepared for a
    table is not passed to [sqlite3_finalize] anywhere. *)
Fixpoint import_tables (fuel : nat) (stmt : ImportForeignSchemaStmt) (db : nat)
    (tbls : option nat) (import_default import_not_null : bool)
    (commands : list string) : M (list string) :=
  rc ← sqlite3_step tbls;
  match fuel with
  | 0 => mret commands
  | S fuel' =>
      if (rc =? SQLITE_ROW)%Z then
        tbl_name ← sqlite3_column_text tbls 0;
        let tbl_name := text_of tbl_name in
        let cft_stmt := start_cft_stmt stmt tbl_name in
        let query_cols := table_info_query tbl_name in
        cols ← sqlitePrepare db query_cols;
        cft_stmt ← (fun w => import_columns (rows_left cols w) cols
                               import_default import_not_null cft_stmt 0 w);
        let cft_stmt := finish_cft_stmt stmt tbl_name cft_stmt in
        import_tables fuel' stmt db tbls import_default import_not_null
                      (lappend commands cft_stmt)
      else mret commands
  end.

(** The text the column loop builds from the rows of [cols], and the
    command the table loop builds for one table: the two loops with the
    engine taken out. *)
Fixpoint columns_text (import_default import_not_null : bool)
    (rows : list (list cell)) (cft_stmt : string) (i : nat) : string :=
  match rows with
  | [] => cft_stmt
  | row :: rest =>
      columns_text import_default import_not_null rest
        (append_column import_default import_not_null cft_stmt i
           (row !! 1 ≫= cell_text) (row !! 2 ≫= cell_text)
           (default 0%Z (cell_int <$> row !! 3)) (row !! 4 ≫= cell_text))
        (S i)
  end.

Definition table_command (stmt : ImportForeignSchemaStmt)
    (import_default import_not_null : bool) (tbl_name : string)
    (columns : list (list cell)) : string :=
  finish_cft_stmt stmt tbl_name
    (columns_text import_default import_not_null columns
       (start_cft_stmt stmt tbl_name) 0).

(** The [PG_CATCH] block, for the value [tbls] has when the error is
    raised; [db] is never [NULL] there. *)
Definition import_catch (db : nat) (tbls : option nat) : M unit :=
  _ ← match tbls with
      | Some t => _ ← sqlite3_finalize (Some t); mret tt
      | None => mret tt
      end;
  _ ← sqlite3_close db;
  mret tt.

(** [f_server_options] are the options of the server
    [GetForeignServerByName] finds. The [PG_TRY] block is entered once
    with [tbls] still [NULL] (up to the prepare that assigns it) and once
    with [tbls] assigned; the handler is the same code. *)
Definition sqliteImportForeignSchema (stmt : ImportForeignSchemaStmt)
    (f_server_options : list DefElem) : M (list string) :=
  if negb (strcmp (remote_schema stmt) "public" =? 0)%Z
     && negb (strcmp (remote_schema stmt) "main" =? 0)%Z
  then ereport "Foreign schema is invalid"
  else
    match parse_statement_options (options stmt) false true with
    | Error msg => ereport msg
    | Ok (import_default, import_not_null) =>
        (* get the db filename *)
        match find_database f_server_options with
        | None => ereport "Assert(svr_database)"
        | Some svr_database =>
            (* Connect to the server *)
            db ← sqliteOpen svr_database;
            tbls ← PG_TRY (sqlitePrepare db (table_query stmt)) (import_catch db None);
            commands ← PG_TRY
              (fun w => import_tables (rows_left tbls w) stmt db tbls
                          import_default import_not_null [] w)
              (import_catch db tbls);
            _ ← sqlite3_finalize tbls;
            _ ← sqlite3_close db;
            mret commands
        end
    end.

End SchemaImport.

End SqliteFdw.


(** ** Concrete databases and inputs used in the examples *)

Module Scenario.

Import Sqlite SqliteFdw.

Definition text_cell (t : string) : cell := mkCell (Some t) 0.
Definition int_cell (t : string) (i : Z) : cell := mkCell (Some t) i.
Definition null_cell : cell := mkCell None 0.

(** The query [sqliteImportForeignSchema] sends when the statement has
    neither LIMIT TO nor EXCEPT. *)
Definition all_tables_query : string :=
  "SELECT name FROM sqlite_master WHERE type = 'table' AND name NOT LIKE 'sqlite_%'".

(** [PRAGMA table_info] of
    [CREATE TABLE items (id INTEGER NOT NULL, name TEXT, price DOUBLE)]:
    one row per column with cid, name, type, notnull, dflt_value, pk. *)
Definition items_table_info : list (list cell) :=
  [ [int_cell "0" 0; text_cell "id"; text_cell "INTEGER"; int_cell "1" 1;
     null_cell; int_cell "0" 0];
    [int_cell "1" 1; text_cell "name"; text_cell "TEXT"; int_cell "0" 0;
     null_cell; int_cell "0" 0];
    [int_cell "2" 2; text_cell "price"; text_cell "DOUBLE"; int_cell "0" 0;
     null_cell; int_cell "0" 0] ].

(** A database file whose only table is [items], holding the two rows
    (1, 'nut', 10.5) and (2, 'bolt', 20.0); the queries other than the
    ones listed do not compile. *)
Definition items_db (filename sql : string) : option prepared :=
  if bool_decide (sql = all_tables_query) then
    Some (mkPrepared 1 0 [[text_cell "items"]])
  else if bool_decide (sql = "PRAGMA table_info(items)") then
    Some (mkPrepared 6 0 items_table_info)
  else if bool_decide (sql = "SELECT price FROM items") then
    Some (mkPrepared 1 0 [[text_cell "10.5"]; [text_cell "20.0"]])
  else if bool_decide (sql = "SELECT id, name, price FROM items") then
    Some (mkPrepared 3 0 [[int_cell "1" 1; text_cell "nut"; text_cell "10.5"];
                          [int_cell "2" 2; text_cell "bolt"; text_cell "20.0"]])
  else None.

Definition every_file_opens (filename : string) : Z := SQLITE_OK.

(** [SQLITE_CANTOPEN] for every file. *)
Definition no_file_opens (filename : string) : Z := 14.

Definition items_opt : SqliteOpt :=
  {| database := "/data/shop.db"; table := "items" |}.

(** Scans of [items], a host table of three columns. The query texts are
    what the deparser hands over. *)
Definition all_columns_query : string := "SELECT id, name, price FROM items".
Definition price_query : string := "SELECT price FROM items".

Definition begin_scan (sqlite3_open_status : string -> Z) (query : string)
    (retrieved_attrs : list nat) : M SQLiteFdwExecutionState :=
  sqliteBeginForeignScan sqlite3_open_status items_db items_opt
    (query, retrieved_attrs) [].

(** begin, end, and end once more *)
Definition end_twice : M (SQLiteFdwExecutionState * SQLiteFdwExecutionState) :=
  festate ← begin_scan every_file_opens all_columns_query [1; 2; 3];
  festate1 ← sqliteEndForeignScan festate;
  festate2 ← sqliteEndForeignScan festate1;
  mret (festate1, festate2).

(** begin, iterate, rescan, iterate *)
Definition iterate_rescan_iterate
  : M (option (list column_value) * option (list column_value)) :=
  festate ← begin_scan every_file_opens all_columns_query [1; 2; 3];
  first ← sqliteIterateForeignScan festate 3;
  festate ← sqliteReScanForeignScan festate;
  second ← sqliteIterateForeignScan festate 3;
  mret (first, second).

(** A scan that retrieves only [price], attribute 3. *)
Definition price_only_scan : M (option (list column_value)) :=
  festate ← begin_scan every_file_opens price_query [3];
  sqliteIterateForeignScan festate 3.

(** [IMPORT FOREIGN SCHEMA main FROM SERVER shop INTO public], on a server
    whose [database] option is the file of [items_opt]. None of the names
    involved needs quoting, so [quote_identifier] returns them as they
    are; the statement has no option and no table list, so
    [defGetBoolean] and [quote_literal_cstr] are not called. *)
Definition import_items : M (list string) :=
  sqliteImportForeignSchema every_file_opens items_db
    (fun _ => Error "not called") (fun name => name) (fun name => name)
    {| server_name := "shop"; remote_schema := "main"; local_schema := "public";
       list_type := FDW_IMPORT_SCHEMA_ALL; table_list := []; options := [] |}
    [ {| defname := "database"; defarg := "/data/shop.db" |} ].

(** The shape of the synthesized statement, in the words of the
    specification: [CREATE FOREIGN TABLE <local_schema>.<table>
    (<column clauses, one per line>) SERVER <server> OPTIONS (table
    '<table>')]. *)
Definition create_foreign_table (local_schema table : string)
    (column_clauses : list string) (server : string) : string :=
  "CREATE FOREIGN TABLE " +:+ local_schema +:+ "." +:+ table +:+ " (" +:+ LF
  +:+ String.concat ("," +:+ LF) column_clauses
  +:+ LF +:+ ") SERVER " +:+ server +:+ LF
  +:+ "OPTIONS (table '" +:+ table +:+ "')".

(** The row materializer in the words of the specification: the tuple has
    one entry per host column; the [j]-th result column goes to the host
    column whose number is the [j]-th entry of the retrieved-attribute
    list; every other column is an explicit null. *)
Definition spec_materialize (natts : nat) (retrieved_attrs : list nat)
    (values : list (option string)) : list column_value :=
  (fun i =>
     match list_find (fun attnum => attnum = S i) retrieved_attrs with
     | Some (j, _) =>
         match values !! j with
         | Some (Some s) => ColFromText s
         | _ => ColNull
         end
     | None => ColNull
     end) <$> seq 0 natts.

End Scenario.


(** ** sqlite_fdw.c: the options of servers and tables *)

Module Options.

Import SqliteFdw.

(** The double quote character, escaped in the C string literals. *)
Definition DQ : string :=
  String (Ascii.Ascii false true false false false true false false) EmptyString.

(** [struct SQLiteFdwOption]; [optname] is [NULL] in the sentinel. *)
Record SQLiteFdwOption : Type := {
  optname : option string;
  optcontext : Oid   (* Oid of catalog in which option may appear *)
}.

(** What [ereport(ERROR, ...)] carries in the validator. *)
Record error_report : Type := {
  errmsg : string;
  errhint : option string
}.

(** [errno] after a failed [stat], as far as [file_exists] tells the
    values apart; [strerror] is the text [%m] prints. *)
Inductive errno_value : Type :=
| ENOENT
| ENOTDIR
| EACCES
| other_errno (strerror : string).

Inductive stat_outcome : Type :=
| stat_ok (is_dir : bool)         (* returned 0; S_ISDIR(st.st_mode) *)
| stat_failed (e : errno_value).

(** [for (opt = array; opt->optname; opt++)] of [sqliteIsValidOption]. *)
Fixpoint is_valid_option_in (array : list SQLiteFdwOption) (option : string)
    (context : Oid) : bool :=
  match array with
  | [] => false
  | opt :: rest =>
      match optname opt with
      | None => false
      | Some name =>
          if (context =? optcontext opt)%N && (strcmp name option =? 0)%Z then true
          else is_valid_option_in rest option context
      end
  end.

(** The loop of the validator that lists the options valid for [catalog]
    in [buf]. *)
Fixpoint append_valid_options (array : list SQLiteFdwOption) (catalog : Oid)
    (buf : string) : string :=
  match array with
  | [] => buf
  | opt :: rest =>
      match optname opt with
      | None => buf
      | Some name =>
          append_valid_options rest catalog
            (if (catalog =? optcontext opt)%N
             then buf +:+ (if (0 <? String.length buf)%nat then ", " else "") +:+ name
             else buf)
      end
  end.

(** The options collected by the loops over option lists: [NULL] until
    the option is seen. *)
Record seen_options : Type := {
  svr_database : option string;
  svr_table : option string
}.

(** The loop of [sqliteGetOptions]: every [database] and every [table]
    option overwrites what was read before. *)
Fixpoint read_options (options : list DefElem) (seen : seen_options) : seen_options :=
  match options with
  | [] => seen
  | def :: rest =>
      let seen := if (strcmp (defname def) "database" =? 0)%Z
                  then {| svr_database := Some (defGetString def);
                          svr_table := svr_table seen |}
                  else seen in
      let seen := if (strcmp (defname def) "table" =? 0)%Z
                  then {| svr_database := svr_database seen;
                          svr_table := Some (defGetString def) |}
                  else seen in
      read_options rest seen
  end.

(** [sqliteGetOptions(foreigntableid)]: [table_options] and
    [server_options] are the options of the foreign table and of its
    server, [rel_name] is what [get_rel_name] returns for the table. *)
Definition sqliteGetOptions (table_options server_options : list DefElem)
    (rel_name : option string) : result SqliteOpt :=
  let options := ([] ++ table_options) ++ server_options in
  let seen := read_options options {| svr_database := None; svr_table := None |} in
  let table := match svr_table seen with
               | None => rel_name
               | Some t => Some t
               end in
  (* Check we have the options we need to proceed *)
  match svr_database seen, table with
  | Some d, Some t => Ok {| database := d; table := t |}
  | _, _ => Error "a database and a table must be specified"
  end.

(** The argument of the last option called [name], if there is one. *)
Definition last_value (name : string) (options : list DefElem) : option string :=
  last (defGetString <$> filter (fun def => defname def = name) options).

Section Validator.

(** [ForeignServerRelationId] and [ForeignTableRelationId], the catalogs
    of servers and of foreign tables. *)
Variable ForeignServerRelationId : Oid.
Variable ForeignTableRelationId : Oid.

(** [stat(name, &st)] *)
Variable stat : string -> stat_outcome.

Definition valid_options : list SQLiteFdwOption :=
  [ (* Connection options *)
    {| optname := Some "database"; optcontext := ForeignServerRelationId |};
    (* Table options *)
    {| optname := Some "table"; optcontext := ForeignTableRelationId |};
    (* Sentinel *)
    {| optname := None; optcontext := InvalidOid |} ].

Definition sqliteIsValidOption (option : string) (context : Oid) : bool :=
  is_valid_option_in valid_options option context.

Definition file_exists (name : string) : result bool :=
  match stat name with
  | stat_ok is_dir => Ok (if is_dir then false else true)
  | stat_failed ENOENT | stat_failed ENOTDIR | stat_failed EACCES => Ok false
  | stat_failed (other_errno strerror) =>
      Error ("could not access file " +:+ DQ +:+ name +:+ DQ +:+ ": " +:+ strerror)
  end.

Definition invalid_option_report (def : DefElem) (catalog : Oid) : error_report :=
  let buf := append_valid_options valid_options catalog "" in
  {| errmsg := "invalid option " +:+ DQ +:+ defname def +:+ DQ;
     errhint := Some ("Valid options in this context are: "
                      +:+ (if (0 <? String.length buf)%nat then buf else "<none>")) |}.

(** The [foreach(cell, options_list)] loop of the validator: the first
    report raised, or the options seen. *)
Fixpoint check_options (options_list : list DefElem) (catalog : Oid)
    (seen : seen_options) : error_report + seen_options :=
  match options_list with
  | [] => inr seen
  | def :: rest =>
      if negb (sqliteIsValidOption (defname def) catalog)
      then inl (invalid_option_report def catalog)
      else if (strcmp (defname def) "database" =? 0)%Z then
        match svr_database seen with
        | Some _ =>
            inl {| errmsg := "redundant options: database (" +:+ defGetString def +:+ ")";
                   errhint := None |}
        | None =>
            match file_exists (defGetString def) with
            | Error msg => inl {| errmsg := msg; errhint := None |}
            | Ok false =>
                inl {| errmsg := "could not access file " +:+ DQ +:+ defGetString def +:+ DQ;
                       errhint := None |}
            | Ok true =>
                check_options rest catalog
                  {| svr_database := Some (defGetString def);
                     svr_table := svr_table seen |}
            end
        end
      else if (strcmp (defname def) "table" =? 0)%Z then
        match svr_table seen with
        | Some _ =>
            inl {| errmsg := "redundant options: table (" +:+ defGetString def +:+ ")";
                   errhint := None |}
        | None =>
            check_options rest catalog
              {| svr_database := svr_database seen;
                 svr_table := Some (defGetString def) |}
        end
      else check_options rest catalog seen
  end.

(** [sqlite_fdw_validator(options, catalog)]: [None] when the function
    returns, the report of the error it raises otherwise. *)
Definition sqlite_fdw_validator (options_list : list DefElem) (catalog : Oid)
  : option error_report :=
  match check_options options_list catalog
          {| svr_database := None; svr_table := None |} with
  | inl report => Some report
  | inr seen =>
      (* Check we have the options we need to proceed *)
      if (catalog =? ForeignServerRelationId)%N
         && bool_decide (svr_database seen = None)
      then Some {| errmsg := "The database name must be specified"; errhint := None |}
      else None
  end.

End Validator.

End Options.

(** ** shippable.c: what the cache stands for *)

Module CacheMeaning.

Import Shippable.

Section Catalog.

Variable FirstBootstrapObjectId : Oid.
Variable getExtensionOfObject : Oid -> Oid -> Oid.

(** The answer of [is_shippable] with the cache taken out: the two early
    returns, then [lookup_shippable]. *)
Definition uncached_answer (objectId classId : Oid)
    (fpinfo : SqliteFdwRelationInfo) : bool :=
  if is_builtin FirstBootstrapObjectId objectId then true
  else match shippable_extensions fpinfo with
       | [] => false
       | _ :: _ => lookup_shippable getExtensionOfObject objectId classId fpinfo
       end.

(** Every entry of the table holds what [lookup_shippable] says for
    [fpinfo]. *)
Definition agrees_with (fpinfo : SqliteFdwRelationInfo) (st : backend) : Prop :=
  forall h k v, ShippableCacheHash st = Some h -> h !! k = Some v ->
                v = lookup_shippable getExtensionOfObject (objid k) (classid k) fpinfo.

End Catalog.

End CacheMeaning.

(** ** sqlite_fdw.c: a scan, as the executor drives it *)

Module ScanDriver.

Import Sqlite SqliteFdw.

(** Every handle in use was handed out by the allocator, and every live
    statement belongs to a connection that was. *)
Definition world_ok (w : world) : Prop :=
  (forall d, is_Some (conns w !! d) -> d < next_handle w) /\
  (forall h st, stmts w !! h = Some st -> h < next_handle w /\ stmt_db st < next_handle w).

(** The [values] array [sqliteIterateForeignScan] fills from a row. *)
Definition row_values (row : list cell) : list (option string) := cell_text <$> row.

(** A tuple column by column: the text of the cell, or null. *)
Definition column_of_cell (c : cell) : column_value :=
  match cell_text c with
  | Some s => ColFromText s
  | None => ColNull
  end.

(** The tuple of a row as wide as the table. *)
Definition row_tuple (row : list cell) : list column_value := column_of_cell <$> row.

(** The parameters [sqlite_bind_param_value] has a binding call for:
    nulls, and values of the three integer types. *)
Definition has_binding (p : param) : bool :=
  isNull p || (ptype p =? INT2OID)%N || (ptype p =? INT4OID)%N || (ptype p =? INT8OID)%N.

Section Driver.

Variable sqlite3_open_status : string -> Z.
Variable engine : string -> string -> option prepared.

(** The executor's loop over a foreign scan: [sqliteIterateForeignScan]
    is called until it returns an empty slot, at most [fuel] times. *)
Fixpoint fetch_rows (fuel : nat) (festate : SQLiteFdwExecutionState) (natts : nat)
  : M (list (list column_value)) :=
  match fuel with
  | 0 => mret []
  | S fuel' =>
      slot ← sqliteIterateForeignScan festate natts;
      match slot with
      | None => mret []
      | Some tuple =>
          tuples ← fetch_rows fuel' festate natts;
          mret (tuple :: tuples)
      end
  end.

(** A whole scan: begin, fetch until the slot is empty, end. *)
Definition run_scan (fuel : nat) (opt : SqliteOpt) (fdw_private : string * list nat)
    (params : list param) (natts : nat) : M (list (list column_value)) :=
  festate ← sqliteBeginForeignScan sqlite3_open_status engine opt fdw_private params;
  tuples ← fetch_rows fuel festate natts;
  _ ← sqliteEndForeignScan festate;
  mret tuples.

End Driver.

End ScanDriver.

(** ** sqlite_fdw.c: the row estimate and EXPLAIN *)

Module Probe.

Import Sqlite SqliteFdw.

(** [snprintf(buf, size, ...)] for the text the format expands to: at most
    [size - 1] characters are stored. *)
Definition snprintf (size : nat) (text : string) : string :=
  String.substring 0 (size - 1) text.

Section Probe.

Variable sqlite3_open_status : string -> Z.
Variable engine : string -> string -> option prepared.

(** The C type [double], and the conversion [(int)] applied to one. *)
Variable double : Type.
Variable double_to_int : double -> Z.
Variable double_zero : double.

(** What [sqlite3_stmt_scanstatus(stmt, 0, SQLITE_SCANSTAT_EST, &est)]
    stores for a query compiled against a file; [None] when it answers
    with an error status. *)
Variable scanstatus_est : string -> string -> option double.

(** [sqlite3_stmt_scanstatus] makes no change to connections or
    statements and is not logged; neither is the
    [sqlite3_stmt_scanstatus_reset] before it, which only clears counters
    the model does not hold. [GetEstimatedRows] never passes [NULL]. *)
Definition sqlite3_stmt_scanstatus (stmt : option nat) : M (Z * option double) :=
  fun w =>
    match stmt ≫= (fun s => stmts w !! s) with
    | None => (Ok (SQLITE_MISUSE, None), w)
    | Some st =>
        match conns w !! stmt_db st ≫= (fun f => scanstatus_est f (stmt_sql st)) with
        | Some est => (Ok (SQLITE_OK, Some est), w)
        | None => (Ok (SQLITE_ERROR, None), w)
        end
    end.

Definition GetEstimatedRows (filename : string) (sql : string) : M Z :=
  (* Connect to the server *)
  db ← sqliteOpen sqlite3_open_status filename;
  stmt ← sqlitePrepare engine db sql;
  r ← sqlite3_stmt_scanstatus stmt;
  if negb (r.1 =? SQLITE_OK)%Z
  then
    _ ← sqlite3_finalize stmt;
    _ ← sqlite3_close db;
    ereport "Could not run sqlite_stmt_scanstatus"
  else
    _ ← sqlite3_finalize stmt;
    _ ← sqlite3_close db;
    mret (double_to_int (default double_zero r.2)).

(** [while (sqlite3_step(stmt) == SQLITE_ROW) ExplainPropertyText("sqlite
    plan", sqlite3_column_text(stmt, 3), es)]; [fuel] is the number of
    rows the statement has left, [es] the properties output so far. *)
Fixpoint explain_rows (fuel : nat) (stmt : option nat)
    (es : list (string * option string)) : M (list (string * option string)) :=
  rc ← sqlite3_step stmt;
  match fuel with
  | 0 => mret es
  | S fuel' =>
      if (rc =? SQLITE_ROW)%Z then
        plan ← sqlite3_column_text stmt 3;
        explain_rows fuel' stmt (es ++ [("sqlite plan", plan)])
      else mret es
  end.

(** [sqliteExplainForeignScan]: [verbose] is [es->verbose], [opt] what
    [sqliteGetOptions] returns, [festate_query] the text [festate->query]
    points to. The result is the list of the properties given to
    [ExplainPropertyText], in order. *)
Definition sqliteExplainForeignScan (verbose : bool) (opt : SqliteOpt)
    (festate_query : string) : M (list (string * option string)) :=
  (* Show the query (only if VERBOSE) *)
  let es := if verbose then [("sqlite query", Some festate_query)] else [] in
  (* Connect to the server *)
  db ← sqliteOpen sqlite3_open_status (database opt);
  (* Build the query *)
  let len := String.length festate_query + 20 in
  let query := snprintf len ("EXPLAIN QUERY PLAN " +:+ festate_query) in
  (* Execute the query *)
  stmt ← sqlitePrepare engine db query;
  es ← (fun w => explain_rows (rows_left stmt w) stmt es w);
  (* Free the query stmts *)
  _ ← sqlite3_finalize stmt;
  (* Close temporary connection *)
  _ ← sqlite3_close db;
  mret es.

End Probe.

End Probe.

(** * Properties *)

(** ** The shippability cache *)

Section ShippableCacheFacts.

Import Shippable.

Variable FirstBootstrapObjectId : Oid.
Variable getExtensionOfObject : Oid -> Oid -> Oid.

#[local] Abbreviation is_shippable := (is_shippable FirstBootstrapObjectId getExtensionOfObject).
#[local] Abbreviation lookup_shippable := (lookup_shippable getExtensionOfObject).
#[local] Abbreviation is_builtin := (is_builtin FirstBootstrapObjectId).
#[local] Abbreviation run_calls := (run_calls FirstBootstrapObjectId getExtensionOfObject).
#[local] Abbreviation reaches_cache := (reaches_cache FirstBootstrapObjectId).

Lemma key_of_inj o c o' c' : key_of o c = key_of o' c' -> o = o' /\ c = c'.
Proof. unfold key_of. intros H. by inversion H. Qed.

Lemma flush_entries_spec (l : list (ShippableCacheKey * bool)) :
  forall h : gmap ShippableCacheKey bool,
    NoDup l.*1 ->
    (forall k, k ∈ l.*1 -> is_Some (h !! k)) ->
    exists h', flush_entries l h = Ok h' /\
               forall k, h' !! k = if decide (k ∈ l.*1) then None else h !! k.
Proof.
  induction l as [|[k0 b0] l IH]; intros h Hnd Hin; cbn [flush_entries].
  - exists h. split; [done|]. intros k.
    destruct (decide (k ∈ ([] : list (ShippableCacheKey * bool)).*1)) as [Hk|]; [|done].
    by apply elem_of_nil in Hk.
  - rewrite fmap_cons in Hnd, Hin |- *. cbn [fst] in *.
    apply NoDup_cons in Hnd as [Hk0 Hnd].
    destruct (Hin k0) as [v Hv]; [set_solver|]. rewrite Hv.
    destruct (IH (delete k0 h) Hnd) as (h' & Hrun & Hlook).
    { intros k Hk. rewrite lookup_delete_ne; [apply Hin; set_solver|].
      intros ->. done. }
    exists h'. split; [done|]. intros k. rewrite Hlook.
    destruct (decide (k = k0)) as [->|Hne].
    + rewrite lookup_delete_eq. repeat case_decide; set_solver.
    + rewrite lookup_delete_ne by done. repeat case_decide; set_solver.
Qed.

(** The callback never reports a corrupted table and leaves no entry. *)
Lemma InvalidateShippableCacheCallback_empties (h : gmap ShippableCacheKey bool) :
  InvalidateShippableCacheCallback h = Ok ∅.
Proof.
  unfold InvalidateShippableCacheCallback.
  destruct (flush_entries_spec (map_to_list h) h) as (h' & -> & Hlook).
  - apply NoDup_fst_map_to_list.
  - intros k [[k' v] [-> Hkv]]%list_elem_of_fmap.
    apply elem_of_map_to_list in Hkv. simpl. eauto.
  - f_equal. apply map_eq. intros k. rewrite Hlook, lookup_empty.
    case_decide as Hk; [done|].
    destruct (h !! k) as [v|] eqn:Hv; [|done].
    exfalso. apply Hk. apply list_elem_of_fmap. exists (k, v).
    split; [done|]. by apply elem_of_map_to_list.
Qed.

Lemma syscache_invalidation_flushes (st : backend) (h : gmap ShippableCacheKey bool) :
  ShippableCacheHash st = Some h ->
  syscache_invalidation st = Ok {| ShippableCacheHash := Some ∅; lookups := lookups st |}.
Proof.
  intros Hst. unfold syscache_invalidation.
  by rewrite Hst, InvalidateShippableCacheCallback_empties.
Qed.

(** What a call that reaches the cache does, on a hit and on a miss. *)
Lemma is_shippable_hit o c fpinfo st h b :
  is_builtin o = false -> shippable_extensions fpinfo <> [] ->
  ShippableCacheHash st = Some h -> h !! key_of o c = Some b ->
  is_shippable o c fpinfo st = (b, st).
Proof.
  intros Hb Hne Hst Hk. unfold Shippable.is_shippable. rewrite Hb.
  destruct (shippable_extensions fpinfo); [done|].
  rewrite Hst. fold (key_of o c). rewrite Hk.
  destruct st; simpl in *; by subst.
Qed.

Lemma is_shippable_miss o c fpinfo st :
  is_builtin o = false -> shippable_extensions fpinfo <> [] ->
  ~ cached st (key_of o c) ->
  is_shippable o c fpinfo st =
    (lookup_shippable o c fpinfo,
     {| ShippableCacheHash :=
          Some (<[key_of o c := lookup_shippable o c fpinfo]>
                  (default ∅ (ShippableCacheHash st)));
        lookups := lookups st ++ [(o, c)] |}).
Proof.
  intros Hb Hne Hk. unfold Shippable.is_shippable. rewrite Hb.
  destruct (shippable_extensions fpinfo); [done|].
  fold (key_of o c).
  destruct (ShippableCacheHash st) as [h|] eqn:Hst; simpl.
  - destruct (h !! key_of o c) eqn:Hl; [|done].
    exfalso. apply Hk. exists h. eauto.
  - unfold InitializeShippableCache. by rewrite lookup_empty.
Qed.

Lemma is_shippable_skip o c fpinfo st :
  reaches_cache (mkCall o c fpinfo) = false ->
  (is_shippable o c fpinfo st).2 = st.
Proof.
  unfold Shippable.reaches_cache, Shippable.is_shippable. simpl.
  destruct (is_builtin o); [done|]. simpl.
  destruct (shippable_extensions fpinfo); [done|].
  rewrite bool_decide_eq_false_2; done.
Qed.

Lemma cached_dec st k : {cached st k} + {~ cached st k}.
Proof.
  unfold cached. destruct (ShippableCacheHash st) as [h|].
  - destruct (h !! k) as [b|] eqn:Hk.
    + left. eauto.
    + right. intros (h' & [= <-] & [v Hv]). congruence.
  - right. intros (h' & [=] & _).
Qed.

(** One step of a run: the log grows by the key of the call exactly when
    the call reaches the cache and misses; the key is cached afterwards. *)
Lemma is_shippable_step o c fpinfo st :
  let st' := (is_shippable o c fpinfo st).2 in
  (reaches_cache (mkCall o c fpinfo) = true /\ ~ cached st (key_of o c) /\
   lookups st' = lookups st ++ [(o, c)] /\
   (forall k, cached st' k <-> cached st k \/ k = key_of o c))
  \/
  ((reaches_cache (mkCall o c fpinfo) = false \/ cached st (key_of o c)) /\
   st' = st).
Proof.
  intros st'. subst st'.
  destruct (reaches_cache (mkCall o c fpinfo)) eqn:Hr.
  - pose proof Hr as Hr'. unfold Shippable.reaches_cache in Hr'. simpl in Hr'.
    apply andb_true_iff in Hr' as [Hb Hne].
    apply negb_true_iff in Hb. apply negb_true_iff, bool_decide_eq_false in Hne.
    destruct (cached_dec st (key_of o c)) as [Hc|Hc].
    + right. split; [by right|].
      destruct Hc as (h & Hst & [b Hb']).
      by rewrite (is_shippable_hit _ _ _ _ _ _ Hb Hne Hst Hb').
    + left. repeat split; try done.
      * by rewrite (is_shippable_miss _ _ _ _ Hb Hne Hc).
      * rewrite (is_shippable_miss _ _ _ _ Hb Hne Hc). simpl.
        intros (h & [= <-] & Hsome).
        destruct (decide (k = key_of o c)) as [->|Hk]; [by right|left].
        rewrite lookup_insert_ne in Hsome by done.
        destruct (ShippableCacheHash st) as [h0|] eqn:Hst; simpl in Hsome.
        -- exists h0. by rewrite Hst.
        -- rewrite lookup_empty in Hsome. by destruct Hsome.
      * rewrite (is_shippable_miss _ _ _ _ Hb Hne Hc). simpl.
        intros [(h & Hst & Hsome)| ->].
        -- eexists. split; [done|]. rewrite Hst. simpl.
           destruct (decide (k = key_of o c)) as [->|Hk].
           ++ rewrite lookup_insert_eq. eauto.
           ++ by rewrite lookup_insert_ne.
        -- eexists. split; [done|]. rewrite lookup_insert_eq. eauto.
  - right. split; [by left|]. by apply is_shippable_skip.
Qed.

(** A run without invalidation logs one lookup for every key that was not
    cached when the run began and that some call reaching the cache asks
    for, and nothing else. *)
Lemma run_calls_log (cs : list call) :
  forall st : backend,
    exists new : list (Oid * Oid),
      lookups (run_calls cs st).2 = lookups st ++ new /\
      NoDup new /\
      (forall o c, (o, c) ∈ new <->
         ~ cached st (key_of o c) /\
         exists fp, mkCall o c fp ∈ cs /\ reaches_cache (mkCall o c fp) = true) /\
      (forall k, cached (run_calls cs st).2 k <->
         cached st k \/ exists o c, (o, c) ∈ new /\ k = key_of o c).
Proof.
  induction cs as [|[o0 c0 fp0] cs IH]; intros st; cbn [Shippable.run_calls snd].
  - exists []. rewrite app_nil_r.
    split; [done|]. split; [constructor|]. split.
    + intros o c. split.
      * intros []%elem_of_nil.
      * intros [_ (fp & []%elem_of_nil & _)].
    + intros k. split; [by left|].
      intros [?|(o & c & []%elem_of_nil & _)]. done.
  - cbn [call_objectId call_classId call_fpinfo].
    destruct (is_shippable_step o0 c0 fp0 st)
      as [(Hr & Hnc & Hlog & Hcached)|[Hskip Heq]].
    + destruct (IH (is_shippable o0 c0 fp0 st).2) as (new & Hl & Hnd & Hmem & Hc).
      exists ((o0, c0) :: new). rewrite Hl, Hlog, <- app_assoc. simpl.
      split; [done|]. split; [|split].
      * constructor; [|done]. intros [Habs _]%Hmem. apply Habs, Hcached. by right.
      * intros o c. rewrite elem_of_cons, Hmem, Hcached. split.
        -- intros [[= -> ->]|[Hn (fp & Hin & Hreach)]].
           ++ split; [done|]. exists fp0. split; [left|done].
           ++ split; [tauto|]. exists fp. split; [by right|done].
        -- intros [Hn (fp & Hin & Hreach)].
           destruct (decide ((o, c) = (o0, c0))) as [|Hne]; [by left|right].
           split.
           ++ intros [?|[??]%key_of_inj]; [done|]. apply Hne. congruence.
           ++ exists fp. split; [|done].
              apply elem_of_cons in Hin as [[= -> -> ->]|]; [done|done].
      * intros k. rewrite Hc, Hcached. split.
        -- intros [[?| ->]|(o & c & Hin & ->)].
           ++ by left.
           ++ right. exists o0, c0. split; [left|done].
           ++ right. exists o, c. split; [by right|done].
        -- intros [?|(o & c & [[= -> ->]|Hin]%elem_of_cons & ->)].
           ++ left. by left.
           ++ left. by right.
           ++ right. eauto.
    + rewrite Heq. destruct (IH st) as (new & Hl & Hnd & Hmem & Hc).
      exists new. split; [done|]. split; [done|]. split; [|done].
      intros o c. rewrite Hmem. split.
      * intros [Hn (fp & Hin & Hreach)]. split; [done|].
        exists fp. split; [by right|done].
      * intros [Hn (fp & Hin & Hreach)]. split; [done|].
        exists fp. split; [|done].
        apply elem_of_cons in Hin as [[= -> -> ->]|]; [|done].
        destruct Hskip; [congruence|done].
Qed.

(** C2. Between two invalidations [is_shippable] asks [lookup_shippable]
    once per key. For an object that is not built in, with a non-empty
    list of shippable extensions: a second call for the same object and
    catalog answers with the boolean of the first and leaves the backend
    state, lookup log included, as it was; any run of calls from a flushed
    (or not yet created) table logs each key at most once, and exactly
    the keys of the calls that reached the cache; the invalidation
    callback succeeds and leaves an empty table, after which the same call
    misses, runs [lookup_shippable] again and logs it. *)
Theorem is_shippable_one_lookup_per_key :
  forall (objectId classId : Oid) (fpinfo : SqliteFdwRelationInfo) (st : backend),
    is_builtin objectId = false ->
    shippable_extensions fpinfo <> [] ->
    let r1 := is_shippable objectId classId fpinfo st in
    (forall fpinfo', shippable_extensions fpinfo' <> [] ->
       is_shippable objectId classId fpinfo' r1.2 = (r1.1, r1.2)) /\
    (forall (cs : list call) (st0 : backend),
       ShippableCacheHash st0 = None \/ ShippableCacheHash st0 = Some ∅ ->
       exists new : list (Oid * Oid),
         lookups (run_calls cs st0).2 = lookups st0 ++ new /\
         NoDup new /\
         forall o c, (o, c) ∈ new <->
           exists fp, mkCall o c fp ∈ cs /\ reaches_cache (mkCall o c fp) = true) /\
    (exists st2 : backend,
       syscache_invalidation r1.2 = Ok st2 /\
       ShippableCacheHash st2 = Some ∅ /\
       lookups st2 = lookups r1.2 /\
       is_shippable objectId classId fpinfo st2 =
         (lookup_shippable objectId classId fpinfo,
          {| ShippableCacheHash :=
               Some {[ key_of objectId classId := lookup_shippable objectId classId fpinfo ]};
             lookups := lookups st2 ++ [(objectId, classId)] |})).
Proof.
  intros objectId classId fpinfo st Hb Hne r1.
  assert (Hafter : exists h b, ShippableCacheHash r1.2 = Some h /\
                               h !! key_of objectId classId = Some b /\ r1.1 = b).
  { subst r1. destruct (cached_dec st (key_of objectId classId)) as [Hc|Hc].
    - destruct Hc as (h & Hst & [b Hk]).
      rewrite (is_shippable_hit _ _ _ _ _ _ Hb Hne Hst Hk). eauto.
    - rewrite (is_shippable_miss _ _ _ _ Hb Hne Hc). simpl.
      eexists _, _. split; [done|]. by rewrite lookup_insert_eq. }
  destruct Hafter as (h & b & Hst1 & Hk & Hr).
  split; [|split].
  - intros fpinfo' Hne'. rewrite Hr.
    by apply (is_shippable_hit _ _ _ _ h).
  - intros cs st0 Hflushed.
    destruct (run_calls_log cs st0) as (new & Hl & Hnd & Hmem & _).
    exists new. split; [done|]. split; [done|].
    intros o c. rewrite Hmem. split; [tauto|]. intros Hin. split; [|done].
    intros (h0 & Hh0 & [v Hv]).
    destruct Hflushed as [Hf|Hf]; rewrite Hf in Hh0; [done|].
    injection Hh0 as <-. by rewrite lookup_empty in Hv.
  - eexists. split; [by apply (syscache_invalidation_flushes _ h)|].
    split; [done|]. split; [done|].
    rewrite is_shippable_miss; [| done | done |]; simpl.
    + by rewrite insert_empty.
    + intros (h0 & [= <-] & [v Hv]). by rewrite lookup_empty in Hv.
Qed.

End ShippableCacheFacts.

Lemma is_shippable_one_lookup_per_key_witness :
  let catalog : Oid -> Oid -> Oid := fun _ _ => 20000%N in
  let fpinfo := {| Shippable.shippable_extensions := [20000%N] |} in
  let r1 := Shippable.is_shippable 10000%N catalog 16384%N 1255%N fpinfo
              Shippable.backend_start in
  Shippable.is_builtin 10000%N 16384%N = false /\
  Shippable.shippable_extensions fpinfo <> [] /\
  forall fpinfo', Shippable.shippable_extensions fpinfo' <> [] ->
    Shippable.is_shippable 10000%N catalog 16384%N 1255%N fpinfo' r1.2 = (r1.1, r1.2).
Proof.
  intros catalog fpinfo r1.
  assert (Hb : Shippable.is_builtin 10000%N 16384%N = false) by reflexivity.
  assert (Hne : Shippable.shippable_extensions fpinfo <> []) by discriminate.
  split; [exact Hb|]. split; [exact Hne|].
  exact (proj1 (is_shippable_one_lookup_per_key 10000%N catalog 16384%N 1255%N
                  fpinfo Shippable.backend_start Hb Hne)).
Defined.

(** C8. The cache key never carries the server: [is_shippable] sets
    [serverid] to 0. With object 16384 of pg_proc (1255) owned by
    extension 20000, server A listing extension 20000 and server B listing
    only extension 30000: asked first, B is told [false]; asked after A,
    B is told A's cached [true], although [lookup_shippable] for B is
    [false], and the table then holds the single entry (16384, 1255, 0). *)
Theorem is_shippable_key_ignores_server :
  let catalog : Oid -> Oid -> Oid :=
    fun _ objectId => if (objectId =? 16384)%N then 20000%N else InvalidOid in
  let serverA := {| Shippable.shippable_extensions := [20000%N] |} in
  let serverB := {| Shippable.shippable_extensions := [30000%N] |} in
  let afterA := Shippable.is_shippable 10000%N catalog 16384%N 1255%N serverA
                  Shippable.backend_start in
  let thenB := Shippable.is_shippable 10000%N catalog 16384%N 1255%N serverB afterA.2 in
  afterA.1 = true /\
  Shippable.lookup_shippable catalog 16384%N 1255%N serverB = false /\
  (Shippable.is_shippable 10000%N catalog 16384%N 1255%N serverB
     Shippable.backend_start).1 = false /\
  thenB.1 = true /\
  Shippable.lookups thenB.2 = [(16384%N, 1255%N)] /\
  Shippable.ShippableCacheHash thenB.2 =
    Some {[ Shippable.mkKey 16384%N 1255%N 0%N := true ]}.
Proof.
  cbv zeta. repeat split; reflexivity.
Qed.

(** ** The name allowlists *)

Section AllowlistFacts.

Import Shippable.

Variable PG_CATALOG_NAMESPACE : Oid.
Variable SearchSysCache1_PROCOID : Oid -> option pg_proc.

Lemma strcmp_zero (s1 s2 : string) : (strcmp s1 s2 =? 0)%Z = bool_decide (s1 = s2).
Proof.
  unfold strcmp. destruct (String.compare s1 s2) eqn:Hc.
  - apply String.compare_eq_iff in Hc. by rewrite bool_decide_eq_true_2.
  - rewrite bool_decide_eq_false_2; [done|].
    intros ->. pose proof (String.compare_antisym s2 s2) as Ha.
    rewrite Hc in Ha. discriminate Ha.
  - rewrite bool_decide_eq_false_2; [done|].
    intros ->. pose proof (String.compare_antisym s2 s2) as Ha.
    rewrite Hc in Ha. discriminate Ha.
Qed.

(** Over the whole array, [is_inarray] is list membership. *)
Lemma is_inarray_elem_of (teststr : string) (array : list string) :
  is_inarray teststr array (length array) = bool_decide (teststr ∈ array).
Proof.
  induction array as [|a array IH]; cbn [is_inarray length].
  - symmetry. apply bool_decide_eq_false_2. by intros ?%elem_of_nil.
  - rewrite strcmp_zero. destruct (decide (teststr = a)) as [->|Ha].
    + rewrite (bool_decide_eq_true_2 (a = a)) by done.
      symmetry. apply bool_decide_eq_true_2. by left.
    + rewrite (bool_decide_eq_false_2 (teststr = a)) by done.
      rewrite IH. apply bool_decide_ext. rewrite elem_of_cons. naive_solver.
Qed.

(** C10. When the function resolves in the catalog, [is_shippable_op] and
    [is_shippable_agg] give the same answer: the function is in the
    built-in namespace and its name is one of avg, average, max, min,
    sum. *)
Theorem is_shippable_op_is_shippable_agg :
  forall (funcid : Oid) (procform : pg_proc),
    SearchSysCache1_PROCOID funcid = Some procform ->
    is_shippable_op PG_CATALOG_NAMESPACE SearchSysCache1_PROCOID funcid =
      is_shippable_agg PG_CATALOG_NAMESPACE SearchSysCache1_PROCOID funcid /\
    is_shippable_op PG_CATALOG_NAMESPACE SearchSysCache1_PROCOID funcid =
      Ok (bool_decide (pronamespace procform = PG_CATALOG_NAMESPACE /\
                       proname procform ∈ ["avg"; "average"; "max"; "min"; "sum"])).
Proof.
  intros funcid procform Hres. split; [reflexivity|].
  unfold is_shippable_op, is_allowed_name. rewrite Hres. f_equal.
  destruct (N.eqb_spec (pronamespace procform) PG_CATALOG_NAMESPACE) as [Hns|Hns].
  - rewrite is_inarray_elem_of. apply bool_decide_ext. naive_solver.
  - rewrite bool_decide_eq_false_2; [done|]. naive_solver.
Qed.

End AllowlistFacts.

Lemma is_shippable_op_is_shippable_agg_witness :
  let catalog : Oid -> option Shippable.pg_proc :=
    fun funcid => if (funcid =? 2108)%N
                  then Some {| Shippable.proname := "sum"; Shippable.pronamespace := 11%N |}
                  else None in
  catalog 2108%N = Some {| Shippable.proname := "sum"; Shippable.pronamespace := 11%N |} /\
  Shippable.is_shippable_op 11%N catalog 2108%N = Shippable.is_shippable_agg 11%N catalog 2108%N.
Proof.
  intros catalog.
  assert (Hres : catalog 2108%N =
                 Some {| Shippable.proname := "sum"; Shippable.pronamespace := 11%N |})
    by reflexivity.
  split; [exact Hres|].
  exact (proj1 (is_shippable_op_is_shippable_agg 11%N catalog 2108%N _ Hres)).
Defined.

(** ** Classification of restriction clauses *)

Section PlannerFacts.

Import SqliteFdw.

Variable Expr : Type.
Variable ri_clause : nat -> Expr.
Variable ri_pseudoconstant : nat -> bool.
Variable is_foreign_expr : Expr -> bool.
Variable pull_varattnos : Expr -> gset Z -> gset Z.

#[local] Abbreviation remote_safe := (fun r : nat => is_foreign_expr (ri_clause r) = true).
#[local] Abbreviation considered := (fun r : nat => ri_pseudoconstant r = false).
#[local] Abbreviation sqliteGetForeignRelSize :=
  (sqliteGetForeignRelSize Expr ri_clause is_foreign_expr pull_varattnos).
#[local] Abbreviation sqliteGetForeignPlan :=
  (sqliteGetForeignPlan Expr ri_clause ri_pseudoconstant is_foreign_expr).

Lemma list_member_ptr_elem_of (l : list nat) (p : nat) :
  list_member_ptr l p = true <-> p ∈ l.
Proof.
  unfold list_member_ptr. rewrite existsb_exists. split.
  - intros (x & Hin & ->%Nat.eqb_eq). by apply list_elem_of_In.
  - intros Hin. exists p. split; [by apply list_elem_of_In|apply Nat.eqb_refl].
Qed.

Lemma classify_conds_filter (l : list nat) :
  forall fpinfo : SqliteFdwRelationInfo,
    let fpinfo' := classify_conds Expr ri_clause is_foreign_expr l fpinfo in
    remote_conds fpinfo' = remote_conds fpinfo ++ filter remote_safe l /\
    local_conds fpinfo' = local_conds fpinfo ++ filter (fun r => ~ remote_safe r) l /\
    attrs_used fpinfo' = attrs_used fpinfo.
Proof.
  induction l as [|r l IH]; intros fpinfo; cbn [classify_conds].
  - by rewrite !filter_nil, !app_nil_r.
  - rewrite !filter_cons.
    destruct (is_foreign_expr (ri_clause r)) eqn:Hr.
    + rewrite decide_True by done. rewrite decide_False by (by intros []).
      destruct (IH {| remote_conds := lappend (remote_conds fpinfo) r;
                      local_conds := local_conds fpinfo;
                      attrs_used := attrs_used fpinfo |}) as (-> & -> & ->).
      cbn. unfold lappend. by rewrite <- app_assoc.
    + rewrite decide_False by done. rewrite decide_True by (by intros ?).
      destruct (IH {| remote_conds := remote_conds fpinfo;
                      local_conds := lappend (local_conds fpinfo) r;
                      attrs_used := attrs_used fpinfo |}) as (-> & -> & ->).
      cbn. unfold lappend. by rewrite <- app_assoc.
Qed.

Lemma sqliteGetForeignRelSize_filter (target_attrs : gset Z) (l : list nat) :
  remote_conds (sqliteGetForeignRelSize target_attrs l) = filter remote_safe l /\
  local_conds (sqliteGetForeignRelSize target_attrs l) = filter (fun r => ~ remote_safe r) l.
Proof.
  unfold SqliteFdw.sqliteGetForeignRelSize. cbn [remote_conds local_conds].
  destruct (classify_conds_filter l
              {| remote_conds := []; local_conds := []; attrs_used := target_attrs |})
    as (-> & -> & _).
  done.
Qed.

(** With [fpinfo] filled by [sqliteGetForeignRelSize], every clause that
    is not a pseudoconstant goes where [is_foreign_expr] sends it. *)
Lemma separate_scan_clauses_filter (target_attrs : gset Z) (base : list nat)
    (l : list nat) :
  forall acc : plan_lists Expr,
    separate_scan_clauses Expr ri_clause ri_pseudoconstant is_foreign_expr
      (sqliteGetForeignRelSize target_attrs base) l acc =
    mkPlanLists
      (plan_remote_conds acc ++ filter remote_safe (filter considered l))
      (plan_remote_exprs acc ++ (ri_clause <$> filter remote_safe (filter considered l)))
      (plan_local_exprs acc
         ++ (ri_clause <$> filter (fun r => ~ remote_safe r) (filter considered l))).
Proof.
  destruct (sqliteGetForeignRelSize_filter target_attrs base) as [Hrem Hloc].
  induction l as [|r l IH]; intros acc; cbn [separate_scan_clauses].
  - rewrite !filter_nil. cbn. rewrite !app_nil_r. by destruct acc.
  - rewrite IH. rewrite (filter_cons considered).
    destruct (ri_pseudoconstant r) eqn:Hp.
    { by rewrite decide_False by done. }
    rewrite decide_True by done. rewrite !filter_cons.
    assert (Hbranch :
      (if list_member_ptr (remote_conds (sqliteGetForeignRelSize target_attrs base)) r
       then true
       else if list_member_ptr (local_conds (sqliteGetForeignRelSize target_attrs base)) r
            then false
            else is_foreign_expr (ri_clause r)) = is_foreign_expr (ri_clause r)).
    { destruct (list_member_ptr (remote_conds _) r) eqn:Hm.
      - apply list_member_ptr_elem_of in Hm. rewrite Hrem in Hm.
        apply list_elem_of_filter in Hm as [Hm _]. by rewrite Hm.
      - destruct (list_member_ptr (local_conds _) r) eqn:Hm'; [|done].
        apply list_member_ptr_elem_of in Hm'. rewrite Hloc in Hm'.
        apply list_elem_of_filter in Hm' as [Hm' _].
        by destruct (is_foreign_expr (ri_clause r)). }
    destruct (is_foreign_expr (ri_clause r)) eqn:Hr.
    + rewrite decide_True by done. rewrite decide_False by (by intros []).
      destruct (list_member_ptr (remote_conds _) r);
        [|destruct (list_member_ptr (local_conds _) r); [done|]];
        cbn; unfold lappend; by rewrite <- !app_assoc.
    + rewrite decide_False by done. rewrite decide_True by (by intros ?).
      destruct (list_member_ptr (remote_conds _) r); [done|].
      destruct (list_member_ptr (local_conds _) r);
        cbn; unfold lappend; by rewrite <- !app_assoc.
Qed.

(** C1 (as the code has it). At relation-sizing time the remote and the
    local conditions are a partition of the restriction clauses: together
    a permutation of the input, and no clause in both. At final-plan time,
    with the relation info computed at sizing time, the clauses that are
    not pseudoconstants are partitioned between [plan_remote_conds] and
    the clauses whose expressions form [plan_local_exprs]; no expression
    is in both expression lists. Pseudoconstant clauses are in neither
    list. *)
Theorem classification_is_partition :
  forall (target_attrs : gset Z) (baserestrictinfo scan_clauses : list nat),
    let fpinfo := sqliteGetForeignRelSize target_attrs baserestrictinfo in
    let plan := sqliteGetForeignPlan fpinfo scan_clauses in
    ((remote_conds fpinfo ++ local_conds fpinfo) ≡ₚ baserestrictinfo /\
     forall r, r ∈ remote_conds fpinfo -> r ∉ local_conds fpinfo) /\
    (plan_remote_exprs plan = ri_clause <$> plan_remote_conds plan /\
     exists local_rinfos : list nat,
       plan_local_exprs plan = ri_clause <$> local_rinfos /\
       (plan_remote_conds plan ++ local_rinfos) ≡ₚ filter considered scan_clauses /\
       (forall r, r ∈ plan_remote_conds plan -> r ∉ local_rinfos) /\
       (forall r, r ∈ scan_clauses -> ri_pseudoconstant r = true ->
                  (r ∉ plan_remote_conds plan) /\ (r ∉ local_rinfos))) /\
    (forall e, e ∈ plan_remote_exprs plan -> e ∉ plan_local_exprs plan).
Proof.
  intros target_attrs base scan fpinfo plan.
  destruct (sqliteGetForeignRelSize_filter target_attrs base) as [Hrem Hloc].
  fold fpinfo in Hrem, Hloc.
  assert (Hplan : plan = mkPlanLists
            (filter remote_safe (filter considered scan))
            (ri_clause <$> filter remote_safe (filter considered scan))
            (ri_clause <$> filter (fun r => ~ remote_safe r) (filter considered scan))).
  { subst plan fpinfo. unfold SqliteFdw.sqliteGetForeignPlan.
    by rewrite separate_scan_clauses_filter. }
  split; [|split].
  - rewrite Hrem, Hloc. split; [apply filter_app_complement|].
    intros r [Hr _]%list_elem_of_filter [Hr' _]%list_elem_of_filter. done.
  - rewrite Hplan. cbn. split; [done|].
    exists (filter (fun r => ~ remote_safe r) (filter considered scan)).
    split; [done|]. split; [apply filter_app_complement|]. split.
    + intros r [Hr _]%list_elem_of_filter [Hr' _]%list_elem_of_filter. done.
    + intros r _ Hp. split.
      * intros [_ [Hc _]%list_elem_of_filter]%list_elem_of_filter. congruence.
      * intros [_ [Hc _]%list_elem_of_filter]%list_elem_of_filter. congruence.
  - rewrite Hplan. cbn.
    intros e (r & -> & [Hr _]%list_elem_of_filter)%list_elem_of_fmap
             (r' & Heq & [Hr' _]%list_elem_of_filter)%list_elem_of_fmap.
    apply Hr'. by rewrite <- Heq.
Qed.

End PlannerFacts.

(** C1 (as stated) fails at final-plan time: a pseudoconstant clause of
    [scan_clauses] is skipped, and ends up in neither list. *)
Lemma classification_skips_pseudoconstant :
  let ri_clause : nat -> nat := fun r => r in
  let ri_pseudoconstant : nat -> bool := fun r => true in
  let is_foreign_expr : nat -> bool := fun e => true in
  let fpinfo := SqliteFdw.sqliteGetForeignRelSize nat ri_clause is_foreign_expr
                  (fun _ s => s) ∅ [] in
  let plan := SqliteFdw.sqliteGetForeignPlan nat ri_clause ri_pseudoconstant
                is_foreign_expr fpinfo [7] in
  ~ (forall r, r ∈ [7] ->
       r ∈ SqliteFdw.plan_remote_conds plan \/
       ri_clause r ∈ SqliteFdw.plan_local_exprs plan).
Proof.
  cbv zeta. intros H. destruct (H 7) as [Hin|Hin]; [by left| |].
  - cbn in Hin. by apply elem_of_nil in Hin.
  - cbn in Hin. by apply elem_of_nil in Hin.
Qed.

(** ** The scan callbacks *)

Section ScanFacts.

Import Sqlite SqliteFdw Scenario.

(** On the zeroed state [cleanup_] calls nothing and changes nothing. *)
Lemma cleanup__zero (w : world) : cleanup_ festate_zero w = (Ok festate_zero, w).
Proof. reflexivity. Qed.

(** [cleanup_] always returns, with [stmt] and [query] cleared and [db]
    as it found it. *)
Lemma cleanup__keeps_db (festate : SQLiteFdwExecutionState) (w : world) :
  exists w', cleanup_ festate w =
             (Ok {| db := db festate; stmt := None; query := None;
                    retrieved_attrs := retrieved_attrs festate |}, w').
Proof.
  destruct festate as [[d|] [s|] [q|] attrs];
    unfold cleanup_, mbind, M_bind, mret, M_ret, sqlite3_finalize, sqlite3_close, pfree;
    repeat first
      [ progress cbn [db stmt query retrieved_attrs]
      | match goal with
        | |- context [match ?m !! ?k with _ => _ end] => destruct (m !! k)
        | |- context [if ?b then _ else _] => destruct b
        end ];
    eauto.
Qed.

(** C3. After [sqliteBeginForeignScan], a first [sqliteEndForeignScan]
    finalizes the statement, closes the connection and frees the query,
    but leaves [db] set to the closed handle (the branch that closes the
    connection clears [stmt] a second time); a second
    [sqliteEndForeignScan] therefore calls [sqlite3_close] on the released
    handle, which answers [SQLITE_MISUSE]. *)
Theorem sqliteEndForeignScan_twice_closes_released_handle :
  (end_twice world_start).1 =
    Ok ({| db := Some 1; stmt := None; query := None; retrieved_attrs := [1; 2; 3] |},
        {| db := Some 1; stmt := None; query := None; retrieved_attrs := [1; 2; 3] |}) /\
  conns (end_twice world_start).2 = ∅ /\
  trace (end_twice world_start).2 =
    [ call_open "/data/shop.db" 1 SQLITE_OK;
      call_prepare 1 all_columns_query (Some 2) SQLITE_OK;
      call_finalize 2 SQLITE_OK;
      call_close 1 SQLITE_OK;
      call_pfree all_columns_query;
      call_close 1 SQLITE_MISUSE ].
Proof. repeat split; vm_compute; reflexivity. Qed.

(** C4. [sqliteIterateForeignScan] never reads [retrieved_attrs]: result
    column [x] goes to host column [x]. For a scan of the three-column
    table that retrieves only attribute 3, the value of [price] lands in
    column 1 and columns 2 and 3 are read past the end of [values], where
    the retrieved-attribute list asks for null, null, price. *)
Theorem sqliteIterateForeignScan_ignores_retrieved_attrs :
  (forall (festate : SQLiteFdwExecutionState) (attrs : list nat) (natts : nat) (w : world),
     sqliteIterateForeignScan
       {| db := db festate; stmt := stmt festate; query := query festate;
          retrieved_attrs := attrs |} natts w
     = sqliteIterateForeignScan festate natts w) /\
  (price_only_scan world_start).1 =
    Ok (Some [ColFromText "10.5"; ColReadPastValues; ColReadPastValues]) /\
  spec_materialize 3 [3] [Some "10.5"] = [ColNull; ColNull; ColFromText "10.5"].
Proof.
  split; [|split].
  - intros festate attrs natts w. reflexivity.
  - vm_compute. reflexivity.
  - vm_compute. reflexivity.
Qed.

(** Whatever the plan and the state of the engine, a failed open ends
    [sqliteBeginForeignScan] right after [sqlite3_open]: the new handle is
    in the set of open connections and nothing else was called. *)
Lemma sqliteBeginForeignScan_open_failure (sqlite3_open_status : string -> Z)
    (engine : string -> string -> option prepared) (opt : SqliteOpt)
    (fdw_private : string * list nat) (params : list param) (w : world) :
  sqlite3_open_status (database opt) <> SQLITE_OK ->
  sqliteBeginForeignScan sqlite3_open_status engine opt fdw_private params w =
    (Error "Can't open sqlite database",
     {| conns := <[next_handle w := database opt]> (conns w);
        stmts := stmts w;
        next_handle := S (next_handle w);
        trace := trace w ++ [call_open (database opt) (next_handle w)
                               (sqlite3_open_status (database opt))] |}).
Proof.
  intros Hrc. unfold sqliteBeginForeignScan, sqliteOpen, sqlite3_open, mbind, M_bind.
  cbn [fst snd]. apply Z.eqb_neq in Hrc. by rewrite Hrc.
Qed.

(** C5. When the file cannot be opened, [sqliteBeginForeignScan] raises
    the error with the handle [sqlite3_open] handed out still open, and no
    call to [sqlite3_close]; when the query cannot be prepared, the
    connection is closed before the error is raised. *)
Theorem sqliteBeginForeignScan_open_failure_leaves_handle :
  let failed_open := begin_scan no_file_opens all_columns_query [1; 2; 3] world_start in
  let failed_prepare :=
    begin_scan every_file_opens "SELECT nope FROM items" [1] world_start in
  (failed_open.1 = Error "Can't open sqlite database" /\
   trace failed_open.2 = [call_open "/data/shop.db" 1 14] /\
   conns failed_open.2 = {[ 1 := "/data/shop.db" ]}) /\
  (failed_prepare.1 = Error "SQL error during prepare" /\
   trace failed_prepare.2 =
     [ call_open "/data/shop.db" 1 SQLITE_OK;
       call_prepare 1 "SELECT nope FROM items" None SQLITE_ERROR;
       call_close 1 SQLITE_OK ] /\
   conns failed_prepare.2 = ∅).
Proof. cbv zeta. repeat split; vm_compute; reflexivity. Qed.

(** C9. [sqliteReScanForeignScan] changes neither the execution state nor
    the engine: the statement is not reset. After one row has been
    fetched, a rescan followed by a fetch yields the second row, not the
    first. *)
Theorem sqliteReScanForeignScan_does_not_restart :
  (forall (festate : SQLiteFdwExecutionState) (w : world),
     sqliteReScanForeignScan festate w = (Ok festate, w)) /\
  (iterate_rescan_iterate world_start).1 =
    Ok (Some [ColFromText "1"; ColFromText "nut"; ColFromText "10.5"],
        Some [ColFromText "2"; ColFromText "bolt"; ColFromText "20.0"]).
Proof.
  split.
  - intros festate w. reflexivity.
  - vm_compute. reflexivity.
Qed.

End ScanFacts.

(** ** Schema import *)

Section ImportFacts.

Import Sqlite SqliteFdw Scenario.

Variable sqlite3_open_status : string -> Z.
Variable engine : string -> string -> option prepared.
Variable defGetBoolean : DefElem -> result bool.
Variable quote_identifier : string -> string.
Variable quote_literal_cstr : string -> string.

#[local] Abbreviation import_columns := (import_columns quote_identifier).
#[local] Abbreviation columns_text := (columns_text quote_identifier).
#[local] Abbreviation import_tables := (import_tables engine quote_identifier).
#[local] Abbreviation table_command := (table_command quote_identifier).

Lemma sqlite3_step_row (s : nat) (w : world) (st : sqlite3_stmt) (row : list cell) :
  stmts w !! s = Some st ->
  p_rows (stmt_result st) !! stmt_pos st = Some row ->
  sqlite3_step (Some s) w =
    (Ok SQLITE_ROW,
     {| conns := conns w; stmts := <[s := stepped st]> (stmts w);
        next_handle := next_handle w;
        trace := trace w ++ [call_step (Some s) SQLITE_ROW] |}).
Proof.
  intros Hs Hrow. unfold sqlite3_step. rewrite Hs.
  apply lookup_lt_Some in Hrow. apply Nat.ltb_lt in Hrow. by rewrite Hrow.
Qed.

Lemma sqlite3_step_done (s : nat) (w : world) (st : sqlite3_stmt) :
  stmts w !! s = Some st ->
  p_rows (stmt_result st) !! stmt_pos st = None ->
  sqlite3_step (Some s) w = (Ok SQLITE_DONE, log (call_step (Some s) SQLITE_DONE) w).
Proof.
  intros Hs Hrow. unfold sqlite3_step. rewrite Hs.
  apply lookup_ge_None in Hrow. apply Nat.ltb_ge in Hrow. by rewrite Hrow.
Qed.

Lemma current_row_stepped (s : nat) (w : world) (st : sqlite3_stmt) (row : list cell) :
  stmts w !! s = Some (stepped st) ->
  p_rows (stmt_result st) !! stmt_pos st = Some row ->
  current_row (Some s) w = row.
Proof.
  intros Hs Hrow. unfold current_row. cbn [mbind option_bind]. rewrite Hs.
  cbn. by rewrite Hrow.
Qed.

Lemma drop_nil_lookup {A} (n : nat) (l : list A) :
  drop n l = [] -> l !! n = None.
Proof.
  intros H. apply lookup_ge_None.
  pose proof (length_drop l n) as Hlen. rewrite H in Hlen. cbn in Hlen. lia.
Qed.

Lemma drop_cons_lookup {A} (n : nat) (l : list A) (x : A) (rest : list A) :
  drop n l = x :: rest -> l !! n = Some x /\ drop (S n) l = rest.
Proof.
  intros H. split.
  - pose proof (lookup_drop l n 0) as Hl. rewrite H, Nat.add_0_r in Hl. by rewrite <- Hl.
  - change (S n) with (1 + n). rewrite Nat.add_comm, <- drop_drop, H. done.
Qed.

Lemma import_columns_run (import_default import_not_null : bool)
    (rest : list (list cell)) :
  forall (s : nat) (w : world) (st : sqlite3_stmt) (cft_stmt : string) (i : nat),
    stmts w !! s = Some st ->
    drop (stmt_pos st) (p_rows (stmt_result st)) = rest ->
    exists (w' : world) (st' : sqlite3_stmt),
      import_columns (length rest) (Some s) import_default import_not_null cft_stmt i w
        = (Ok (columns_text import_default import_not_null rest cft_stmt i), w') /\
      conns w' = conns w /\
      next_handle w' = next_handle w /\
      stmts w' = <[s := st']> (stmts w).
Proof.
  induction rest as [|row rest IH]; intros s w st cft_stmt i Hs Hdrop;
    cbn [length SqliteFdw.import_columns SqliteFdw.columns_text].
  - exists (log (call_step (Some s) SQLITE_DONE) w), st.
    unfold mbind, M_bind.
    rewrite (sqlite3_step_done s w st Hs) by (by apply drop_nil_lookup).
    split; [done|]. cbn. by rewrite insert_id.
  - apply drop_cons_lookup in Hdrop as [Hrow Hdrop].
    unfold mbind, M_bind. rewrite (sqlite3_step_row s w st row Hs Hrow).
    cbn [Z.eqb SQLITE_ROW Pos.eqb].
    set (w1 := {| conns := conns w; stmts := <[s := stepped st]> (stmts w);
                  next_handle := next_handle w;
                  trace := trace w ++ [call_step (Some s) SQLITE_ROW] |}).
    assert (Hs1 : stmts w1 !! s = Some (stepped st)) by apply lookup_insert_eq.
    unfold sqlite3_column_text, sqlite3_column_int.
    rewrite (current_row_stepped s w1 st row Hs1 Hrow).
    destruct (IH s w1 (stepped st)
                (append_column quote_identifier import_default import_not_null cft_stmt i
                   (row !! 1 ≫= cell_text) (row !! 2 ≫= cell_text)
                   (default 0%Z (cell_int <$> row !! 3)) (row !! 4 ≫= cell_text))
                (S i) Hs1 Hdrop)
      as (w' & st' & Hrun & Hc & Hn & Hst).
    exists w', st'. rewrite Hrun. split; [done|]. split; [done|]. split; [done|].
    rewrite Hst. subst w1. cbn. by rewrite insert_insert_eq.
Qed.

Lemma sqliteOpen_ok (filename : string) (w : world) :
  sqlite3_open_status filename = SQLITE_OK ->
  sqliteOpen sqlite3_open_status filename w =
    (Ok (next_handle w),
     {| conns := <[next_handle w := filename]> (conns w); stmts := stmts w;
        next_handle := S (next_handle w);
        trace := trace w ++ [call_open filename (next_handle w) SQLITE_OK] |}).
Proof.
  intros Hopen. unfold sqliteOpen, sqlite3_open, mbind, M_bind.
  cbn [fst snd]. by rewrite Hopen.
Qed.

Lemma sqlitePrepare_ok (d : nat) (w : world) (filename sql : string) (p : prepared) :
  conns w !! d = Some filename ->
  engine filename sql = Some p ->
  sqlitePrepare engine d sql w =
    (Ok (Some (next_handle w)),
     {| conns := conns w;
        stmts := <[next_handle w := mkStmt d sql p 0]> (stmts w);
        next_handle := S (next_handle w);
        trace := trace w ++ [call_prepare d sql (Some (next_handle w)) SQLITE_OK] |}).
Proof.
  intros Hd Hp. unfold sqlitePrepare, sqlite3_prepare_v2, mbind, M_bind.
  by rewrite Hd, Hp.
Qed.

Lemma sqlite3_close_returns (d : nat) (w : world) :
  exists rc w', sqlite3_close d w = (Ok rc, w') /\ stmts w' = stmts w.
Proof.
  unfold sqlite3_close. destruct (conns w !! d); [destruct (has_statements d w)|]; eauto.
Qed.

Lemma import_tables_run (stmt : ImportForeignSchemaStmt)
    (import_default import_not_null : bool) (d : nat) (filename : string)
    (table_info : string -> prepared) (rest : list (list cell)) :
  forall (t : nat) (w : world) (st : sqlite3_stmt) (commands : list string),
    conns w !! d = Some filename ->
    stmts w !! t = Some st ->
    drop (stmt_pos st) (p_rows (stmt_result st)) = rest ->
    handles_allocated w ->
    (forall row, row ∈ rest ->
       engine filename (table_info_query (table_name row))
       = Some (table_info (table_name row))) ->
    exists w' : world,
      import_tables (length rest) stmt d (Some t) import_default import_not_null commands w
        = (Ok (commands ++
               ((fun row => table_command stmt import_default import_not_null
                              (table_name row) (p_rows (table_info (table_name row))))
                  <$> rest)), w') /\
      conns w' = conns w /\
      handles_allocated w' /\
      is_Some (stmts w' !! t) /\
      size (stmts w') = size (stmts w) + length rest.
Proof.
  induction rest as [|row rest IH]; intros t w st commands Hd Ht Hdrop Hfresh Heng;
    cbn [length SqliteFdw.import_tables].
  - exists (log (call_step (Some t) SQLITE_DONE) w).
    unfold mbind, M_bind.
    rewrite (sqlite3_step_done t w st Ht) by (by apply drop_nil_lookup).
    cbn. rewrite app_nil_r, Nat.add_0_r.
    split; [done|]. split; [done|]. split; [exact Hfresh|].
    split; [rewrite Ht; eauto|done].
  - apply drop_cons_lookup in Hdrop as [Hrow Hdrop].
    unfold mbind, M_bind. rewrite (sqlite3_step_row t w st row Ht Hrow).
    cbn [Z.eqb SQLITE_ROW Pos.eqb].
    set (w1 := {| conns := conns w; stmts := <[t := stepped st]> (stmts w);
                  next_handle := next_handle w;
                  trace := trace w ++ [call_step (Some t) SQLITE_ROW] |}).
    assert (Ht1 : stmts w1 !! t = Some (stepped st)) by apply lookup_insert_eq.
    unfold sqlite3_column_text.
    rewrite (current_row_stepped t w1 st row Ht1 Hrow).
    fold (table_name row).
    rewrite (sqlitePrepare_ok d w1 filename _ (table_info (table_name row)) Hd)
      by (apply Heng; left).
    set (s := next_handle w1).
    set (q := table_info_query (table_name row)).
    set (w2 := {| conns := conns w1;
                  stmts := <[s := mkStmt d q (table_info (table_name row)) 0]> (stmts w1);
                  next_handle := S s;
                  trace := trace w1 ++ [call_prepare d q (Some s) SQLITE_OK] |}).
    assert (Hs2 : stmts w2 !! s = Some (mkStmt d q (table_info (table_name row)) 0))
      by apply lookup_insert_eq.
    assert (Hleft : rows_left (Some s) w2 = length (p_rows (table_info (table_name row)))).
    { unfold rows_left. cbn [mbind option_bind]. rewrite Hs2. cbn. lia. }
    rewrite Hleft.
    destruct (import_columns_run import_default import_not_null
                (p_rows (table_info (table_name row))) s w2 _
                (start_cft_stmt quote_identifier stmt (table_name row)) 0 Hs2 eq_refl)
      as (w3 & st' & Hrun & Hc3 & Hn3 & Hst3).
    rewrite Hrun.
    assert (Hts : t <> s).
    { assert (t < s); [|lia]. apply Hfresh. rewrite Ht. eauto. }
    assert (Hstmts3 : stmts w3 = <[s := st']> (<[t := stepped st]> (stmts w))).
    { rewrite Hst3. subst w2 w1. cbn. by rewrite insert_insert_eq. }
    assert (Hnone : stmts w !! s = None).
    { destruct (stmts w !! s) eqn:Hl; [|done].
      assert (s < next_handle w); [apply Hfresh; eauto|].
      assert (Hs : s = next_handle w) by reflexivity. lia. }
    destruct (IH t w3 (stepped st)
                (lappend commands
                   (finish_cft_stmt quote_identifier stmt (table_name row)
                      (columns_text import_default import_not_null
                         (p_rows (table_info (table_name row)))
                         (start_cft_stmt quote_identifier stmt (table_name row)) 0))))
      as (w' & Hrun' & Hc' & Hf' & Ht' & Hsize').
    + by rewrite Hc3.
    + rewrite Hstmts3, lookup_insert_ne by done. apply lookup_insert_eq.
    + done.
    + intros h. rewrite Hstmts3, Hn3.
      assert (Hnext : next_handle w2 = S (next_handle w)) by reflexivity.
      assert (Hs : s = next_handle w) by reflexivity.
      rewrite Hnext.
      destruct (decide (h = s)) as [->|Hhs]; [lia|].
      rewrite lookup_insert_ne by done.
      destruct (decide (h = t)) as [->|Hht].
      * intros _. assert (t < next_handle w); [apply Hfresh; rewrite Ht; eauto|]. lia.
      * rewrite lookup_insert_ne by done. intros Hh. apply Hfresh in Hh. lia.
    + intros row' Hin. apply Heng. by right.
    + exists w'. rewrite Hrun'. split.
      { f_equal. f_equal. unfold lappend. rewrite <- app_assoc. done. }
      split; [by rewrite Hc', Hc3|]. split; [done|]. split; [done|].
      rewrite Hsize', Hstmts3.
      rewrite map_size_insert_None.
      * rewrite map_size_insert_Some by (rewrite Ht; eauto). lia.
      * rewrite lookup_insert_ne by done. done.
Qed.

(** A successful import: the commands are the ones the two loops build
    from what the engine answers, one per table and in the order of the
    table query; the statement of every [PRAGMA table_info] is still live
    when the function returns. *)
Lemma sqliteImportForeignSchema_run (stmt : ImportForeignSchemaStmt)
    (f_server_options : list DefElem) (import_default import_not_null : bool)
    (svr_database : string) (tables : prepared) (table_info : string -> prepared)
    (w : world) :
  remote_schema stmt = "public" \/ remote_schema stmt = "main" ->
  parse_statement_options defGetBoolean (options stmt) false true
    = Ok (import_default, import_not_null) ->
  find_database f_server_options = Some svr_database ->
  sqlite3_open_status svr_database = SQLITE_OK ->
  engine svr_database (table_query quote_literal_cstr stmt) = Some tables ->
  (forall row, row ∈ p_rows tables ->
     engine svr_database (table_info_query (table_name row))
     = Some (table_info (table_name row))) ->
  handles_allocated w ->
  exists w' : world,
    sqliteImportForeignSchema sqlite3_open_status engine defGetBoolean
      quote_identifier quote_literal_cstr stmt f_server_options w
    = (Ok ((fun row => table_command stmt import_default import_not_null
                         (table_name row) (p_rows (table_info (table_name row))))
             <$> p_rows tables), w') /\
    size (stmts w') = size (stmts w) + length (p_rows tables).
Proof.
  intros Hschema Hparse Hdb Hopen Htables Hinfo Hfresh.
  unfold sqliteImportForeignSchema.
  assert (Hs : negb (strcmp (remote_schema stmt) "public" =? 0)%Z
               && negb (strcmp (remote_schema stmt) "main" =? 0)%Z = false).
  { destruct Hschema as [-> | ->]; reflexivity. }
  rewrite Hs, Hparse, Hdb.
  unfold mbind, M_bind. rewrite (sqliteOpen_ok _ _ Hopen).
  set (d := next_handle w).
  set (w1 := {| conns := <[d := svr_database]> (conns w); stmts := stmts w;
                next_handle := S d;
                trace := trace w ++ [call_open svr_database d SQLITE_OK] |}).
  assert (Hd : conns w1 !! d = Some svr_database) by apply lookup_insert_eq.
  unfold PG_TRY at 1. rewrite (sqlitePrepare_ok d w1 _ _ tables Hd Htables).
  set (t := next_handle w1).
  set (w2 := {| conns := conns w1;
                stmts := <[t := mkStmt d (table_query quote_literal_cstr stmt) tables 0]>
                           (stmts w1);
                next_handle := S t;
                trace := trace w1 ++ [call_prepare d (table_query quote_literal_cstr stmt)
                                        (Some t) SQLITE_OK] |}).
  assert (Ht : stmts w2 !! t
               = Some (mkStmt d (table_query quote_literal_cstr stmt) tables 0))
    by apply lookup_insert_eq.
  assert (Hleft : rows_left (Some t) w2 = length (p_rows tables)).
  { unfold rows_left. cbn [mbind option_bind]. rewrite Ht. cbn. lia. }
  assert (Hnone : stmts w !! t = None).
  { destruct (stmts w !! t) eqn:Hl; [|done].
    assert (t < next_handle w); [apply Hfresh; eauto|].
    assert (t = S (next_handle w)) by reflexivity. lia. }
  unfold PG_TRY. rewrite Hleft.
  destruct (import_tables_run stmt import_default import_not_null d svr_database
              table_info (p_rows tables) t w2 _ [] Hd Ht eq_refl)
    as (w3 & Hrun & Hc3 & Hf3 & [st3 Ht3] & Hsize3).
  { intros h. assert (Hnext : next_handle w2 = S (S (next_handle w))) by reflexivity.
    rewrite Hnext. destruct (decide (h = t)) as [->|Hne].
    - intros _. assert (t = S (next_handle w)) by reflexivity. lia.
    - unfold w2. cbn [stmts]. rewrite lookup_insert_ne by done.
      intros Hh. apply Hfresh in Hh. lia. }
  { exact Hinfo. }
  rewrite Hrun. unfold sqlite3_finalize. rewrite Ht3.
  set (w4 := {| conns := conns w3; stmts := delete t (stmts w3);
                next_handle := next_handle w3;
                trace := trace w3 ++ [call_finalize t SQLITE_OK] |}).
  destruct (sqlite3_close_returns d w4) as (rc & w5 & Hclose & Hstmts5).
  rewrite Hclose. exists w5. split; [done|].
  rewrite Hstmts5. unfold w4. cbn [stmts].
  rewrite map_size_delete_Some by eauto.
  rewrite Hsize3. unfold w2. cbn [stmts].
  rewrite map_size_insert_None by done. unfold w1. cbn [stmts]. lia.
Qed.

End ImportFacts.

Section ItemsImport.

Import Sqlite SqliteFdw Scenario.

Lemma handles_allocated_start : handles_allocated world_start.
Proof. intros h [st Hst]. cbn in Hst. by rewrite lookup_empty in Hst. Qed.

Lemma string_app_assoc (a b c : string) : (a +:+ b) +:+ c = a +:+ (b +:+ c).
Proof.
  induction a as [|x a IH]; [done|].
  change (String x ((a +:+ b) +:+ c) = String x (a +:+ (b +:+ c))). by rewrite IH.
Qed.

(** C7. Importing a database whose table query answers [items] and whose
    [PRAGMA table_info(items)] answers the columns (id INTEGER NOT NULL,
    name TEXT, price DOUBLE), with import_default = false and
    import_not_null = true, yields one command: the CREATE FOREIGN TABLE
    statement with exactly the column clauses [id bigint NOT NULL],
    [name text], [price double precision], in that order. The four names
    are ones [quote_identifier] returns unquoted. *)
Theorem import_items_column_clauses :
  forall (sqlite3_open_status : string -> Z) (engine : string -> string -> option prepared)
         (defGetBoolean : DefElem -> result bool)
         (quote_identifier quote_literal_cstr : string -> string)
         (stmt : ImportForeignSchemaStmt) (f_server_options : list DefElem)
         (svr_database : string),
    remote_schema stmt = "public" \/ remote_schema stmt = "main" ->
    parse_statement_options defGetBoolean (options stmt) false true = Ok (false, true) ->
    find_database f_server_options = Some svr_database ->
    sqlite3_open_status svr_database = SQLITE_OK ->
    engine svr_database (table_query quote_literal_cstr stmt)
      = Some (mkPrepared 1 0 [[text_cell "items"]]) ->
    engine svr_database "PRAGMA table_info(items)" = Some (mkPrepared 6 0 items_table_info) ->
    quote_identifier "items" = "items" ->
    quote_identifier "id" = "id" ->
    quote_identifier "name" = "name" ->
    quote_identifier "price" = "price" ->
    (sqliteImportForeignSchema sqlite3_open_status engine defGetBoolean
       quote_identifier quote_literal_cstr stmt f_server_options world_start).1
    = Ok [create_foreign_table (local_schema stmt) "items"
            ["id bigint NOT NULL"; "name text"; "price double precision"]
            (quote_identifier (server_name stmt))].
Proof.
  intros os eng dgb qi qlc stmt fso file Hschema Hparse Hdb Hopen Htq Hpragma Hi1 Hi2 Hi3 Hi4.
  destruct (sqliteImportForeignSchema_run os eng dgb qi qlc stmt fso false true file
              _ (fun _ => mkPrepared 6 0 items_table_info) world_start
              Hschema Hparse Hdb Hopen Htq) as (w' & Hrun & _).
  - intros row ->%list_elem_of_singleton. exact Hpragma.
  - apply handles_allocated_start.
  - rewrite Hrun. cbn [fst]. f_equal.
    cbv -[String.append].
    rewrite Hi1, Hi2, Hi3, Hi4.
    rewrite !string_app_assoc. reflexivity.
Qed.

Lemma import_items_column_clauses_witness :
  (import_items world_start).1
  = Ok [create_foreign_table "public" "items"
          ["id bigint NOT NULL"; "name text"; "price double precision"] "shop"].
Proof.
  exact (import_items_column_clauses every_file_opens items_db
           (fun _ => Error "not called") (fun name => name) (fun name => name)
           {| server_name := "shop"; remote_schema := "main"; local_schema := "public";
              list_type := FDW_IMPORT_SCHEMA_ALL; table_list := []; options := [] |}
           [ {| defname := "database"; defarg := "/data/shop.db" |} ]
           "/data/shop.db"
           (or_intror eq_refl) eq_refl eq_refl eq_refl eq_refl eq_refl
           eq_refl eq_refl eq_refl eq_refl).
Defined.

(** C6. On the successful import of the database with the single table
    [items], the statement prepared for [PRAGMA table_info(items)] (handle
    3) is never given to [sqlite3_finalize]: it is still live when
    [sqliteImportForeignSchema] returns, and the final [sqlite3_close] is
    refused with [SQLITE_BUSY], so the connection (handle 1) stays open as
    well. Only the table statement (handle 2) is finalized. *)
Theorem sqliteImportForeignSchema_never_finalizes_cols :
  let r := import_items world_start in
  r.1 = Ok [create_foreign_table "public" "items"
              ["id bigint NOT NULL"; "name text"; "price double precision"] "shop"] /\
  stmt_sql <$> stmts r.2 !! 3 = Some "PRAGMA table_info(items)" /\
  conns r.2 = {[ 1 := "/data/shop.db" ]} /\
  trace r.2 =
    [ call_open "/data/shop.db" 1 SQLITE_OK;
      call_prepare 1 all_tables_query (Some 2) SQLITE_OK;
      call_step (Some 2) SQLITE_ROW;
      call_prepare 1 "PRAGMA table_info(items)" (Some 3) SQLITE_OK;
      call_step (Some 3) SQLITE_ROW;
      call_step (Some 3) SQLITE_ROW;
      call_step (Some 3) SQLITE_ROW;
      call_step (Some 3) SQLITE_DONE;
      call_step (Some 2) SQLITE_DONE;
      call_finalize 2 SQLITE_OK;
      call_close 1 SQLITE_BUSY ].
Proof. cbv zeta. repeat split; vm_compute; reflexivity. Qed.

End ItemsImport.

(** ** Options of servers and tables *)

Section OptionFacts.

Import SqliteFdw Options.

Variable ForeignServerRelationId : Oid.
Variable ForeignTableRelationId : Oid.
Variable stat : string -> stat_outcome.

#[local] Abbreviation sqliteIsValidOption :=
  (sqliteIsValidOption ForeignServerRelationId ForeignTableRelationId).
#[local] Abbreviation file_exists := (file_exists stat).
#[local] Abbreviation check_options :=
  (check_options ForeignServerRelationId ForeignTableRelationId stat).
#[local] Abbreviation sqlite_fdw_validator :=
  (sqlite_fdw_validator ForeignServerRelationId ForeignTableRelationId stat).

Lemma sqliteIsValidOption_iff (option : string) (context : Oid) :
  sqliteIsValidOption option context = true <->
  (context = ForeignServerRelationId /\ option = "database") \/
  (context = ForeignTableRelationId /\ option = "table").
Proof.
  unfold Options.sqliteIsValidOption, valid_options. cbn [is_valid_option_in optname optcontext].
  rewrite !strcmp_zero.
  destruct (N.eqb_spec context ForeignServerRelationId) as [Hs|Hs];
    destruct (N.eqb_spec context ForeignTableRelationId) as [Ht|Ht];
    repeat case_bool_decide; cbn; naive_solver.
Qed.

Hypothesis catalogs_differ : ForeignServerRelationId <> ForeignTableRelationId.

Lemma valid_for_server (option : string) :
  sqliteIsValidOption option ForeignServerRelationId = true <-> option = "database".
Proof. rewrite sqliteIsValidOption_iff. naive_solver. Qed.

Lemma valid_for_table (option : string) :
  sqliteIsValidOption option ForeignTableRelationId = true <-> option = "table".
Proof. rewrite sqliteIsValidOption_iff. naive_solver. Qed.

(** Once a [database] option has been seen, any further option of a
    server is refused. *)
Lemma check_options_server_full (def : DefElem) (rest : list DefElem)
    (seen : seen_options) :
  is_Some (svr_database seen) ->
  exists report, check_options (def :: rest) ForeignServerRelationId seen = inl report.
Proof.
  intros [d Hd]. cbn [Options.check_options].
  destruct (sqliteIsValidOption (defname def) ForeignServerRelationId) eqn:Hv; cbn [negb].
  - apply valid_for_server in Hv. rewrite Hv. cbn. rewrite Hd. eauto.
  - eauto.
Qed.

Lemma check_options_table_full (def : DefElem) (rest : list DefElem)
    (seen : seen_options) :
  is_Some (svr_table seen) ->
  exists report, check_options (def :: rest) ForeignTableRelationId seen = inl report.
Proof.
  intros [d Hd]. cbn [Options.check_options].
  destruct (sqliteIsValidOption (defname def) ForeignTableRelationId) eqn:Hv; cbn [negb].
  - apply valid_for_table in Hv. rewrite Hv. cbn. rewrite Hd. eauto.
  - eauto.
Qed.

(** X1. The options of a server pass the validator exactly when they are one
    single [database] option naming a file that [file_exists] accepts: no
    option at all, a second option of any name, or a missing file each
    raise an error. *)
Theorem validator_accepts_server_options (options_list : list DefElem) :
  sqlite_fdw_validator options_list ForeignServerRelationId = None <->
  exists def, options_list = [def] /\ defname def = "database" /\
              file_exists (defGetString def) = Ok true.
Proof.
  unfold Options.sqlite_fdw_validator. rewrite N.eqb_refl. split.
  - destruct options_list as [|def rest]; [by cbn|].
    cbn [Options.check_options].
    destruct (sqliteIsValidOption (defname def) ForeignServerRelationId) eqn:Hv;
      cbn [negb]; [|done].
    apply valid_for_server in Hv. rewrite Hv. cbn [svr_database svr_table].
    change (strcmp "database" "database" =? 0)%Z with true. cbn iota.
    destruct (file_exists (defGetString def)) as [[|]|msg] eqn:Hf; [|done|done].
    destruct rest as [|def' rest].
    + intros _. eauto.
    + destruct (check_options_server_full def' rest
                  {| svr_database := Some (defGetString def); svr_table := None |})
        as [report ->]; [by eexists|]. done.
  - intros (def & -> & Hname & Hf). cbn [Options.check_options].
    rewrite (proj2 (valid_for_server _) Hname), Hname. cbn [negb svr_database].
    change (strcmp "database" "database" =? 0)%Z with true. cbn iota.
    rewrite Hf. done.
Qed.

(** X2. The options of a foreign table pass the validator exactly when there
    is none or a single [table] option; its value is not looked at. *)
Theorem validator_accepts_table_options (options_list : list DefElem) :
  sqlite_fdw_validator options_list ForeignTableRelationId = None <->
  options_list = [] \/ exists def, options_list = [def] /\ defname def = "table".
Proof.
  unfold Options.sqlite_fdw_validator.
  assert (Hne : (ForeignTableRelationId =? ForeignServerRelationId)%N = false).
  { apply N.eqb_neq. congruence. }
  rewrite Hne. cbn [andb]. split.
  - destruct options_list as [|def rest]; [by left|]. intros H. right.
    revert H. cbn [Options.check_options].
    destruct (sqliteIsValidOption (defname def) ForeignTableRelationId) eqn:Hv;
      cbn [negb]; [|done].
    apply valid_for_table in Hv. rewrite Hv. cbn [svr_database svr_table].
    change (strcmp "table" "database" =? 0)%Z with false.
    change (strcmp "table" "table" =? 0)%Z with true. cbn iota.
    destruct rest as [|def' rest].
    + intros _. eauto.
    + destruct (check_options_table_full def' rest
                  {| svr_database := None; svr_table := Some (defGetString def) |})
        as [report ->]; [by eexists|]. done.
  - intros [->|(def & -> & Hname)]; [done|]. cbn [Options.check_options].
    rewrite (proj2 (valid_for_table _) Hname), Hname. cbn [negb svr_table].
    change (strcmp "table" "database" =? 0)%Z with false.
    change (strcmp "table" "table" =? 0)%Z with true. done.
Qed.

(** X3. An option that is not valid for the catalog, met first in the list,
    is reported by name, and the hint lists the option that is valid
    there: [database] for servers, [table] for foreign tables, [<none>]
    for every other catalog. *)
Theorem validator_reports_invalid_option (def : DefElem) (rest : list DefElem)
    (catalog : Oid) :
  sqliteIsValidOption (defname def) catalog = false ->
  sqlite_fdw_validator (def :: rest) catalog =
    Some {| errmsg := "invalid option " +:+ DQ +:+ defname def +:+ DQ;
            errhint := Some ("Valid options in this context are: " +:+
                             (if decide (catalog = ForeignServerRelationId) then "database"
                              else if decide (catalog = ForeignTableRelationId) then "table"
                              else "<none>")) |}.
Proof.
  intros Hv. unfold Options.sqlite_fdw_validator. cbn [Options.check_options].
  rewrite Hv. cbn [negb]. unfold invalid_option_report. do 3 f_equal.
  unfold valid_options. cbn [append_valid_options optname optcontext].
  destruct (decide (catalog = ForeignServerRelationId)) as [->|Hs].
  - rewrite N.eqb_refl.
    rewrite (proj2 (N.eqb_neq _ _) catalogs_differ). reflexivity.
  - rewrite (proj2 (N.eqb_neq _ _) Hs).
    destruct (decide (catalog = ForeignTableRelationId)) as [->|Ht].
    + rewrite N.eqb_refl. reflexivity.
    + rewrite (proj2 (N.eqb_neq _ _) Ht). reflexivity.
Qed.

(** X4. For a catalog other than those of servers and foreign tables (a user
    mapping, the wrapper itself) the validator accepts the empty option
    list and nothing else. *)
Theorem validator_other_catalog (options_list : list DefElem) (catalog : Oid) :
  catalog <> ForeignServerRelationId ->
  catalog <> ForeignTableRelationId ->
  sqlite_fdw_validator options_list catalog = None <-> options_list = [].
Proof.
  intros Hs Ht. split.
  - destruct options_list as [|def rest]; [done|].
    unfold Options.sqlite_fdw_validator. cbn [Options.check_options].
    destruct (sqliteIsValidOption (defname def) catalog) eqn:Hv; [|done].
    apply sqliteIsValidOption_iff in Hv. naive_solver.
  - intros ->. unfold Options.sqlite_fdw_validator. cbn.
    by rewrite (proj2 (N.eqb_neq _ _) Hs).
Qed.

End OptionFacts.

Section GetOptionsFacts.

Import SqliteFdw Options.

Lemma read_options_last (options : list DefElem) :
  forall seen : seen_options,
    read_options options seen =
      {| svr_database := match last_value "database" options with
                         | Some d => Some d
                         | None => svr_database seen
                         end;
         svr_table := match last_value "table" options with
                      | Some t => Some t
                      | None => svr_table seen
                      end |}.
Proof.
  unfold last_value.
  induction options as [|def rest IH]; intros seen; cbn [read_options].
  - by destruct seen.
  - rewrite IH, !strcmp_zero, !filter_cons. clear IH.
    destruct (decide (defname def = "database")) as [Hd|Hd];
      destruct (decide (defname def = "table")) as [Ht|Ht];
      try (rewrite Hd in Ht; discriminate Ht).
    + rewrite (bool_decide_eq_true_2 _ Hd), (bool_decide_eq_false_2 _ Ht).
      cbn [svr_database svr_table]. rewrite fmap_cons, last_cons.
      by destruct (last _), (last _).
    + rewrite (bool_decide_eq_false_2 _ Hd), (bool_decide_eq_true_2 _ Ht).
      cbn [svr_database svr_table]. rewrite fmap_cons, last_cons.
      by destruct (last _), (last _).
    + rewrite (bool_decide_eq_false_2 _ Hd), (bool_decide_eq_false_2 _ Ht).
      by destruct (last _), (last _).
Qed.

(** X5. [sqliteGetOptions] reads the options of the table followed by those
    of its server, and of several [database] or [table] options the last
    one wins, so an option of the server overrides the same option of the
    table. Without a [table] option the name of the relation is used;
    without a [database] option, or without any table name, the error is
    raised. *)
Theorem sqliteGetOptions_last_wins (table_options server_options : list DefElem)
    (rel_name : option string) :
  sqliteGetOptions table_options server_options rel_name =
    match last_value "database" (table_options ++ server_options),
          match last_value "table" (table_options ++ server_options) with
          | Some t => Some t
          | None => rel_name
          end
    with
    | Some d, Some t => Ok {| database := d; table := t |}
    | _, _ => Error "a database and a table must be specified"
    end.
Proof.
  unfold sqliteGetOptions. rewrite read_options_last. cbn [app svr_database svr_table].
  by destruct (last_value "database" (table_options ++ server_options)),
              (last_value "table" (table_options ++ server_options)).
Qed.

End GetOptionsFacts.

Lemma validator_accepts_server_options_witness :
  Options.sqlite_fdw_validator 1417%N 3118%N (fun _ => Options.stat_ok false)
    [ {| SqliteFdw.defname := "database"; SqliteFdw.defarg := "/data/shop.db" |} ] 1417%N
  = None.
Proof.
  apply (validator_accepts_server_options 1417%N 3118%N (fun _ => Options.stat_ok false)
           ltac:(discriminate)).
  eexists. repeat split.
Defined.

Lemma validator_accepts_table_options_witness :
  Options.sqlite_fdw_validator 1417%N 3118%N (fun _ => Options.stat_ok false)
    [ {| SqliteFdw.defname := "table"; SqliteFdw.defarg := "items" |} ] 3118%N
  = None.
Proof.
  apply (validator_accepts_table_options 1417%N 3118%N (fun _ => Options.stat_ok false)
           ltac:(discriminate)).
  right. eexists. repeat split.
Defined.

Lemma validator_reports_invalid_option_witness :
  Options.sqlite_fdw_validator 1417%N 3118%N (fun _ => Options.stat_ok false)
    [ {| SqliteFdw.defname := "table"; SqliteFdw.defarg := "items" |} ] 1417%N
  = Some {| Options.errmsg := "invalid option " +:+ Options.DQ +:+ "table" +:+ Options.DQ;
            Options.errhint := Some "Valid options in this context are: database" |}.
Proof.
  exact (validator_reports_invalid_option 1417%N 3118%N (fun _ => Options.stat_ok false)
           ltac:(discriminate)
           {| SqliteFdw.defname := "table"; SqliteFdw.defarg := "items" |} [] 1417%N
           eq_refl).
Defined.

Lemma validator_other_catalog_witness :
  Options.sqlite_fdw_validator 1417%N 3118%N (fun _ => Options.stat_ok false) [] 1418%N
  = None.
Proof.
  apply (validator_other_catalog 1417%N 3118%N (fun _ => Options.stat_ok false)
           [] 1418%N ltac:(discriminate) ltac:(discriminate)).
  reflexivity.
Defined.

(** ** The shippability cache, seen from its callers *)

Section CacheMeaningFacts.

Import Shippable CacheMeaning.

Variable FirstBootstrapObjectId : Oid.
Variable getExtensionOfObject : Oid -> Oid -> Oid.

#[local] Abbreviation is_shippable := (is_shippable FirstBootstrapObjectId getExtensionOfObject).
#[local] Abbreviation lookup_shippable := (lookup_shippable getExtensionOfObject).
#[local] Abbreviation is_builtin := (is_builtin FirstBootstrapObjectId).
#[local] Abbreviation run_calls := (run_calls FirstBootstrapObjectId getExtensionOfObject).
#[local] Abbreviation uncached_answer :=
  (uncached_answer FirstBootstrapObjectId getExtensionOfObject).
#[local] Abbreviation agrees_with := (agrees_with getExtensionOfObject).

Lemma list_member_oid_elem_of (l : list Oid) (datum : Oid) :
  list_member_oid l datum = true <-> datum ∈ l.
Proof.
  unfold list_member_oid. rewrite existsb_exists. split.
  - intros (x & Hin & ->%N.eqb_eq). by apply list_elem_of_In.
  - intros Hin. exists datum. split; [by apply list_elem_of_In|apply N.eqb_refl].
Qed.

(** What a call does: an early return, a hit, or a miss that adds the key
    of the call to the table it found. *)
Lemma is_shippable_cases (o c : Oid) (fpinfo : SqliteFdwRelationInfo) (st : backend) :
  let r := is_shippable o c fpinfo st in
  (r.1 = uncached_answer o c fpinfo /\ r.2 = st)
  \/ (uncached_answer o c fpinfo = lookup_shippable o c fpinfo /\
      exists h v, ShippableCacheHash st = Some h /\ h !! key_of o c = Some v /\
                  r.1 = v /\ r.2 = st)
  \/ (uncached_answer o c fpinfo = lookup_shippable o c fpinfo /\
      default ∅ (ShippableCacheHash st) !! key_of o c = None /\
      r.1 = lookup_shippable o c fpinfo /\
      ShippableCacheHash r.2 =
        Some (<[key_of o c := lookup_shippable o c fpinfo]>
                (default ∅ (ShippableCacheHash st)))).
Proof.
  unfold Shippable.is_shippable, CacheMeaning.uncached_answer.
  destruct (is_builtin o); [by left|].
  destruct (shippable_extensions fpinfo) as [|e l] eqn:Hl; [by left|].
  fold (key_of o c).
  destruct (ShippableCacheHash st) as [h|] eqn:Hst; cbn [default].
  - destruct (h !! key_of o c) as [v|] eqn:Hk.
    + right. left. split; [done|]. exists h, v. destruct st; cbn in *; by subst.
    + right. right. done.
  - right. right. unfold InitializeShippableCache.
    rewrite lookup_empty. done.
Qed.

(** One call keeps the agreement and every entry of the table. *)
Lemma is_shippable_keeps (o c : Oid) (fpinfo : SqliteFdwRelationInfo) (st : backend) :
  (agrees_with fpinfo st ->
   (is_shippable o c fpinfo st).1 = uncached_answer o c fpinfo /\
   agrees_with fpinfo (is_shippable o c fpinfo st).2) /\
  (forall h k v, ShippableCacheHash st = Some h -> h !! k = Some v ->
     exists h', ShippableCacheHash (is_shippable o c fpinfo st).2 = Some h' /\
                h' !! k = Some v).
Proof.
  destruct (is_shippable_cases o c fpinfo st)
    as [[Hr Hs]|[(Hu & h & v & Hst & Hk & Hr & Hs)|(Hu & Hk & Hr & Htable)]].
  - rewrite Hr, Hs. split; [done|]. eauto.
  - rewrite Hr, Hs. split; [|eauto]. intros Hagree. split; [|done].
    rewrite Hu. apply (Hagree h _ v Hst Hk).
  - split.
    + intros Hagree. split; [by rewrite Hr, Hu|].
      intros h' k v. rewrite Htable. intros [= <-].
      destruct (decide (k = key_of o c)) as [->|Hne].
      * rewrite lookup_insert_eq. by intros [= <-].
      * rewrite lookup_insert_ne by done.
        destruct (ShippableCacheHash st) as [h0|] eqn:Hst; cbn [default].
        -- apply (Hagree h0 k v Hst).
        -- by rewrite lookup_empty.
    + intros h k v Hst Hkv. rewrite Htable, Hst. cbn [default].
      eexists. split; [done|]. rewrite Hst in Hk. cbn in Hk.
      rewrite lookup_insert_ne; [done|]. intros <-. congruence.
Qed.

Lemma run_calls_agree :
  forall (fpinfo : SqliteFdwRelationInfo) (cs : list call) (st : backend),
    Forall (fun c => call_fpinfo c = fpinfo) cs ->
    agrees_with fpinfo st ->
    (run_calls cs st).1
      = (fun c => uncached_answer (call_objectId c) (call_classId c) fpinfo) <$> cs /\
    agrees_with fpinfo (run_calls cs st).2.
Proof.
  intros fpinfo cs. induction cs as [|[o c fp] cs IH]; intros st Hall Hagree;
    cbn [Shippable.run_calls fst snd]; [done|].
  apply Forall_cons in Hall as [Hfp Hall]. cbn in Hfp. subst fp.
  cbn [call_objectId call_classId call_fpinfo].
  destruct (proj1 (is_shippable_keeps o c fpinfo st) Hagree) as [Hr Hagree'].
  destruct (IH _ Hall Hagree') as [Hrs Hfinal].
  rewrite Hr, Hrs. done.
Qed.

(** X6. With one configuration in use, and a table that is empty, not yet
    created, or filled under that configuration, the cache is invisible:
    every call of a run is answered as the function would answer without
    a cache, from the catalog. *)
Theorem is_shippable_agrees_with_lookup :
  forall (fpinfo : SqliteFdwRelationInfo) (cs : list call) (st : backend),
    Forall (fun c => call_fpinfo c = fpinfo) cs ->
    agrees_with fpinfo st ->
    (run_calls cs st).1
      = (fun c => uncached_answer (call_objectId c) (call_classId c) fpinfo) <$> cs /\
    agrees_with fpinfo (run_calls cs st).2.
Proof. exact run_calls_agree. Qed.

(** X8. An invalidation of pg_foreign_server never fails with a corrupted
    table, keeps the table allocated and leaves no entry in it; so the
    calls made after it under one configuration, whatever was cached
    before and under whichever configuration, are answered from the
    catalog. *)
Theorem is_shippable_after_invalidation :
  forall (st : backend) (fpinfo : SqliteFdwRelationInfo) (cs : list call),
    Forall (fun c => call_fpinfo c = fpinfo) cs ->
    exists st' : backend,
      syscache_invalidation st = Ok st' /\
      (forall k, ~ cached st' k) /\
      (run_calls cs st').1
        = (fun c => uncached_answer (call_objectId c) (call_classId c) fpinfo) <$> cs.
Proof.
  intros st fpinfo cs Hall.
  destruct (ShippableCacheHash st) as [h|] eqn:Hst.
  - exists {| ShippableCacheHash := Some ∅; lookups := lookups st |}.
    split; [by apply (syscache_invalidation_flushes FirstBootstrapObjectId getExtensionOfObject st h)|]. split.
    + intros k (h' & [= <-] & [v Hv]). by rewrite lookup_empty in Hv.
    + apply run_calls_agree; [done|].
      intros h' k v [= <-] Hk. by rewrite lookup_empty in Hk.
  - exists st. split; [unfold syscache_invalidation; by rewrite Hst|]. split.
    + intros k (h' & Hh & _). congruence.
    + apply run_calls_agree; [done|]. intros h' k v Hh. congruence.
Qed.

(** X7. No run of calls, whatever the configurations passed, changes or drops
    an entry of the table. *)
Theorem is_shippable_never_changes_entry :
  forall (cs : list call) (st : backend) (h : gmap ShippableCacheKey bool)
         (k : ShippableCacheKey) (v : bool),
    ShippableCacheHash st = Some h ->
    h !! k = Some v ->
    exists h', ShippableCacheHash (run_calls cs st).2 = Some h' /\ h' !! k = Some v.
Proof.
  induction cs as [|[o c fp] cs IH]; intros st h k v Hst Hk;
    cbn [Shippable.run_calls fst snd]; [eauto|].
  cbn [call_objectId call_classId call_fpinfo].
  destruct (proj2 (is_shippable_keeps o c fp st) h k v Hst Hk) as (h' & Hst' & Hk').
  apply (IH _ h' k v Hst' Hk').
Qed.

Lemma uncached_answer_iff :
  forall (objectId classId : Oid) (fpinfo : SqliteFdwRelationInfo),
    uncached_answer objectId classId fpinfo = true <->
    (objectId < FirstBootstrapObjectId)%N \/
    (getExtensionOfObject classId objectId <> InvalidOid /\
     getExtensionOfObject classId objectId ∈ shippable_extensions fpinfo).
Proof.
  intros o c fpinfo.
  unfold CacheMeaning.uncached_answer, Shippable.is_builtin, Shippable.lookup_shippable,
    OidIsValid.
  destruct (N.ltb_spec o FirstBootstrapObjectId) as [Hlt|Hge]; [naive_solver|].
  destruct (shippable_extensions fpinfo) as [|e l] eqn:Hl.
  - split; [done|]. intros [?|[_ []%elem_of_nil]]. lia.
  - destruct (N.eqb_spec (getExtensionOfObject c o) InvalidOid) as [He|He]; cbn [negb andb].
    + split; [done|]. intros [?|[? _]]; [lia|done].
    + destruct (list_member_oid (e :: l) (getExtensionOfObject c o)) eqn:Hm.
      * apply list_member_oid_elem_of in Hm. naive_solver.
      * split; [done|]. intros [?|[_ Hin]]; [lia|].
        apply list_member_oid_elem_of in Hin. congruence.
Qed.

(** X9. What an answer means while the table agrees with the configuration:
    [is_shippable] says yes exactly for the built-in objects (identifiers
    below [FirstBootstrapObjectId]) and for the objects owned by an
    extension that the configuration lists. *)
Theorem is_shippable_true_iff :
  forall (objectId classId : Oid) (fpinfo : SqliteFdwRelationInfo) (st : backend),
    agrees_with fpinfo st ->
    (is_shippable objectId classId fpinfo st).1 = true <->
    (objectId < FirstBootstrapObjectId)%N \/
    (getExtensionOfObject classId objectId <> InvalidOid /\
     getExtensionOfObject classId objectId ∈ shippable_extensions fpinfo).
Proof.
  intros o c fpinfo st Hagree.
  destruct (proj1 (is_shippable_keeps o c fpinfo st) Hagree) as [-> _].
  apply uncached_answer_iff.
Qed.

End CacheMeaningFacts.

Lemma is_shippable_agrees_with_lookup_witness :
  let catalog : Oid -> Oid -> Oid :=
    fun _ objectId => if (objectId =? 16384)%N then 20000%N else InvalidOid in
  let fpinfo := {| Shippable.shippable_extensions := [20000%N] |} in
  let cs := [ Shippable.mkCall 16384%N 1255%N fpinfo;
              Shippable.mkCall 16385%N 1255%N fpinfo;
              Shippable.mkCall 16384%N 1255%N fpinfo;
              Shippable.mkCall 100%N 1255%N fpinfo ] in
  (Shippable.run_calls 10000%N catalog cs Shippable.backend_start).1
  = (fun c => CacheMeaning.uncached_answer 10000%N catalog
                (Shippable.call_objectId c) (Shippable.call_classId c) fpinfo) <$> cs.
Proof.
  intros catalog fpinfo cs.
  refine (proj1 (is_shippable_agrees_with_lookup 10000%N catalog fpinfo cs
                   Shippable.backend_start _ _)).
  - repeat constructor.
  - intros h k v Hst. discriminate Hst.
Defined.

Lemma is_shippable_never_changes_entry_witness :
  let catalog : Oid -> Oid -> Oid := fun _ _ => 20000%N in
  let st := {| Shippable.ShippableCacheHash :=
                 Some {[ Shippable.key_of 16384%N 1255%N := false ]};
               Shippable.lookups := [] |} in
  let cs := [ Shippable.mkCall 16384%N 1255%N {| Shippable.shippable_extensions := [20000%N] |};
              Shippable.mkCall 16385%N 1255%N {| Shippable.shippable_extensions := [20000%N] |} ] in
  exists h', Shippable.ShippableCacheHash (Shippable.run_calls 10000%N catalog cs st).2
             = Some h' /\
             h' !! Shippable.key_of 16384%N 1255%N = Some false.
Proof.
  intros catalog st cs.
  refine (is_shippable_never_changes_entry 10000%N catalog cs st
            {[ Shippable.key_of 16384%N 1255%N := false ]}
            (Shippable.key_of 16384%N 1255%N) false _ _).
  - reflexivity.
  - reflexivity.
Defined.

Section AllowlistMoreFacts.

Import Shippable.

Variable PG_CATALOG_NAMESPACE : Oid.
Variable SearchSysCache1_PROCOID : Oid -> option pg_proc.

#[local] Abbreviation is_shippable_func :=
  (is_shippable_func PG_CATALOG_NAMESPACE SearchSysCache1_PROCOID).
#[local] Abbreviation is_shippable_agg :=
  (is_shippable_agg PG_CATALOG_NAMESPACE SearchSysCache1_PROCOID).
#[local] Abbreviation is_shippable_op :=
  (is_shippable_op PG_CATALOG_NAMESPACE SearchSysCache1_PROCOID).

Lemma is_allowed_name_true (funcid : Oid) (allowed_names : list string) :
  is_allowed_name PG_CATALOG_NAMESPACE SearchSysCache1_PROCOID funcid allowed_names
    (length allowed_names) = Ok true <->
  exists procform, SearchSysCache1_PROCOID funcid = Some procform /\
                   pronamespace procform = PG_CATALOG_NAMESPACE /\
                   proname procform ∈ allowed_names.
Proof.
  unfold is_allowed_name. destruct (SearchSysCache1_PROCOID funcid) as [procform|].
  - destruct (N.eqb_spec (pronamespace procform) PG_CATALOG_NAMESPACE) as [Hns|Hns].
    + rewrite (is_inarray_elem_of PG_CATALOG_NAMESPACE SearchSysCache1_PROCOID). split.
      * intros [= Hin%bool_decide_eq_true]. by exists procform.
      * intros (p & [= <-] & _ & Hin). f_equal. by apply bool_decide_eq_true_2.
    + split; [done|]. intros (p & [= <-] & ? & _). done.
  - split; [done|]. intros (p & [=] & _).
Qed.

(** X10. [is_shippable_func] accepts exactly the functions of the built-in
    namespace called abs or coalesce; a function that does not resolve
    raises the lookup error instead. *)
Theorem is_shippable_func_iff :
  forall funcid : Oid,
    (is_shippable_func funcid = Ok true <->
     exists procform, SearchSysCache1_PROCOID funcid = Some procform /\
                      pronamespace procform = PG_CATALOG_NAMESPACE /\
                      (proname procform = "abs" \/ proname procform = "coalesce")) /\
    (is_shippable_func funcid = Error "cache lookup failed for function" <->
     SearchSysCache1_PROCOID funcid = None).
Proof.
  intros funcid. split.
  - unfold Shippable.is_shippable_func. rewrite is_allowed_name_true.
    split; intros (p & Hp & Hns & Hin); exists p; (split; [done|]); (split; [done|]).
    + apply elem_of_cons in Hin as [?|Hin]; [by left|].
      apply list_elem_of_singleton in Hin. by right.
    + destruct Hin as [-> | ->]; [left|right; left].
  - unfold Shippable.is_shippable_func, is_allowed_name.
    by destruct (SearchSysCache1_PROCOID funcid).
Qed.

(** X11. The scalar-function allowlist and the aggregate allowlist share no
    name: no function identifier is accepted by both [is_shippable_func]
    and [is_shippable_agg] (or [is_shippable_op]). *)
Theorem is_shippable_func_not_agg :
  forall funcid : Oid,
    is_shippable_func funcid = Ok true ->
    is_shippable_agg funcid = Ok false /\ is_shippable_op funcid = Ok false.
Proof.
  intros funcid Hf. unfold Shippable.is_shippable_func in Hf.
  apply (is_allowed_name_true funcid ["abs"; "coalesce"]) in Hf as (p & Hp & Hns & Hin).
  assert (Hname : proname p = "abs" \/ proname p = "coalesce").
  { apply elem_of_cons in Hin as [?|Hin]; [by left|].
    apply list_elem_of_singleton in Hin. by right. }
  unfold Shippable.is_shippable_agg, Shippable.is_shippable_op, is_allowed_name.
  rewrite Hp, Hns, N.eqb_refl. destruct Hname as [-> | ->]; split; reflexivity.
Qed.

End AllowlistMoreFacts.

Lemma is_shippable_func_not_agg_witness :
  let catalog : Oid -> option Shippable.pg_proc :=
    fun funcid => if (funcid =? 1397)%N
                  then Some {| Shippable.proname := "abs"; Shippable.pronamespace := 11%N |}
                  else None in
  Shippable.is_shippable_func 11%N catalog 1397%N = Ok true /\
  Shippable.is_shippable_agg 11%N catalog 1397%N = Ok false /\
  Shippable.is_shippable_op 11%N catalog 1397%N = Ok false.
Proof.
  intros catalog.
  assert (Hf : Shippable.is_shippable_func 11%N catalog 1397%N = Ok true) by reflexivity.
  split; [exact Hf|].
  exact (is_shippable_func_not_agg 11%N catalog 1397%N Hf).
Defined.

Lemma is_shippable_after_invalidation_witness :
  let catalog : Oid -> Oid -> Oid := fun _ _ => 20000%N in
  let st := {| Shippable.ShippableCacheHash :=
                 Some {[ Shippable.key_of 16384%N 1255%N := true ]};
               Shippable.lookups := [(16384%N, 1255%N)] |} in
  let fpinfo := {| Shippable.shippable_extensions := [30000%N] |} in
  exists st' : Shippable.backend,
    Shippable.syscache_invalidation st = Ok st' /\
    (forall k, ~ Shippable.cached st' k) /\
    (Shippable.run_calls 10000%N catalog [Shippable.mkCall 16384%N 1255%N fpinfo] st').1
    = [false].
Proof.
  intros catalog st fpinfo.
  exact (is_shippable_after_invalidation 10000%N catalog st fpinfo
           [Shippable.mkCall 16384%N 1255%N fpinfo]
           ltac:(repeat constructor)).
Defined.

Lemma is_shippable_true_iff_witness :
  let catalog : Oid -> Oid -> Oid := fun _ _ => 20000%N in
  let fpinfo := {| Shippable.shippable_extensions := [20000%N] |} in
  (Shippable.is_shippable 10000%N catalog 16384%N 1255%N fpinfo
     Shippable.backend_start).1 = true <->
  (16384 < 10000)%N \/ (20000%N <> InvalidOid /\ 20000%N ∈ [20000%N]).
Proof.
  intros catalog fpinfo.
  refine (is_shippable_true_iff 10000%N catalog 16384%N 1255%N fpinfo
            Shippable.backend_start _).
  intros h k v Hst. discriminate Hst.
Defined.

(** ** Classification, beyond the partition *)

Section PlannerMoreFacts.

Import SqliteFdw.

Variable Expr : Type.
Variable ri_clause : nat -> Expr.
Variable ri_pseudoconstant : nat -> bool.

(** What makes [sqliteGetForeignPlan] send a clause to the remote side,
    for the oracle [f] it is run with. *)
#[local] Abbreviation goes_remote := (fun (f : Expr -> bool) (fpinfo : SqliteFdwRelationInfo) (r : nat) =>
  list_member_ptr (remote_conds fpinfo) r
  || negb (list_member_ptr (local_conds fpinfo) r) && f (ri_clause r)).

Lemma separate_scan_clauses_any (f : Expr -> bool) (fpinfo : SqliteFdwRelationInfo)
    (l : list nat) :
  forall acc : plan_lists Expr,
    separate_scan_clauses Expr ri_clause ri_pseudoconstant f fpinfo l acc =
    let considered := filter (fun r => ri_pseudoconstant r = false) l in
    mkPlanLists
      (plan_remote_conds acc ++ filter (fun r => goes_remote f fpinfo r = true) considered)
      (plan_remote_exprs acc
         ++ (ri_clause <$> filter (fun r => goes_remote f fpinfo r = true) considered))
      (plan_local_exprs acc
         ++ (ri_clause <$> filter (fun r => goes_remote f fpinfo r <> true) considered)).
Proof.
  cbv zeta.
  induction l as [|r l IH]; intros acc; cbn [separate_scan_clauses].
  - rewrite !filter_nil. cbn. rewrite !app_nil_r. by destruct acc.
  - rewrite IH. rewrite (filter_cons (fun r => ri_pseudoconstant r = false)).
    destruct (ri_pseudoconstant r) eqn:Hp.
    { by rewrite decide_False by done. }
    rewrite decide_True by done. rewrite !filter_cons.
    destruct (list_member_ptr (remote_conds fpinfo) r) eqn:Hrem; cbn [orb].
    { rewrite decide_True by done. rewrite decide_False by (by intros []).
      cbn. unfold lappend. by rewrite <- !app_assoc. }
    destruct (list_member_ptr (local_conds fpinfo) r) eqn:Hloc; cbn [negb andb].
    { rewrite decide_False by done. rewrite decide_True by done.
      cbn. unfold lappend. by rewrite <- !app_assoc. }
    destruct (f (ri_clause r)) eqn:Hf.
    + rewrite decide_True by done. rewrite decide_False by (by intros []).
      cbn. unfold lappend. by rewrite <- !app_assoc.
    + rewrite decide_False by done. rewrite decide_True by done.
      cbn. unfold lappend. by rewrite <- !app_assoc.
Qed.

(** X12. Whatever relation info it is handed, [sqliteGetForeignPlan] keeps the
    scan clauses that are not pseudoconstants, each once and in their
    order: those found in [remote_conds], or found in neither list and
    judged foreign-safe, form the remote list; the expressions of all the
    others form the local list. *)
Theorem sqliteGetForeignPlan_any_fpinfo :
  forall (is_foreign_expr : Expr -> bool) (fpinfo : SqliteFdwRelationInfo)
         (scan_clauses : list nat),
    let plan := sqliteGetForeignPlan Expr ri_clause ri_pseudoconstant is_foreign_expr
                  fpinfo scan_clauses in
    let considered := filter (fun r => ri_pseudoconstant r = false) scan_clauses in
    plan_remote_conds plan
      = filter (fun r => goes_remote is_foreign_expr fpinfo r = true) considered /\
    plan_remote_exprs plan = ri_clause <$> plan_remote_conds plan /\
    plan_local_exprs plan
      = (ri_clause <$> filter (fun r => goes_remote is_foreign_expr fpinfo r <> true)
                         considered) /\
    length (plan_remote_conds plan) + length (plan_local_exprs plan) = length considered.
Proof.
  intros f fpinfo scan plan considered. subst plan.
  unfold SqliteFdw.sqliteGetForeignPlan. rewrite separate_scan_clauses_any.
  cbn. fold considered. repeat split.
  rewrite length_fmap, <- length_app, filter_app_complement. done.
Qed.

(** X13. Clauses classified at sizing time are not tested again: if every scan
    clause that is not a pseudoconstant is in one of the two lists of the
    relation info, the outcome does not depend on the foreign-safety test
    used at plan time. *)
Theorem sqliteGetForeignPlan_does_not_reclassify :
  forall (f1 f2 : Expr -> bool) (fpinfo : SqliteFdwRelationInfo)
         (scan_clauses : list nat),
    (forall r, r ∈ scan_clauses -> ri_pseudoconstant r = false ->
               r ∈ remote_conds fpinfo \/ r ∈ local_conds fpinfo) ->
    sqliteGetForeignPlan Expr ri_clause ri_pseudoconstant f1 fpinfo scan_clauses
    = sqliteGetForeignPlan Expr ri_clause ri_pseudoconstant f2 fpinfo scan_clauses.
Proof.
  intros f1 f2 fpinfo scan Hknown. unfold SqliteFdw.sqliteGetForeignPlan.
  generalize (mkPlanLists (Expr:=Expr) [] [] []).
  induction scan as [|r l IH]; intros acc; cbn [separate_scan_clauses]; [done|].
  rewrite IH by (intros r' Hin; apply Hknown; by right). f_equal.
  destruct (ri_pseudoconstant r) eqn:Hp; [done|].
  destruct (list_member_ptr (remote_conds fpinfo) r) eqn:Hrem; [done|].
  destruct (list_member_ptr (local_conds fpinfo) r) eqn:Hloc; [done|].
  destruct (Hknown r) as [Hin|Hin]; [by left|done| |].
  - apply list_member_ptr_elem_of in Hin. congruence.
  - apply list_member_ptr_elem_of in Hin. congruence.
Qed.

Variable is_foreign_expr : Expr -> bool.

(** The attribute numbers an expression refers to. *)
Variable varattnos : Expr -> gset Z.

Lemma pull_local_attrs_elem_of (conds : list nat) :
  forall (attrs : gset Z) (a : Z),
    a ∈ pull_local_attrs Expr ri_clause (fun e s => s ∪ varattnos e) conds attrs <->
    a ∈ attrs \/ exists r, r ∈ conds /\ a ∈ varattnos (ri_clause r).
Proof.
  induction conds as [|r conds IH]; intros attrs a; cbn [pull_local_attrs].
  - split; [by left|]. intros [?|(r & []%elem_of_nil & _)]. done.
  - rewrite IH, elem_of_union. split.
    + intros [[?|?]|(r' & Hin & Ha)].
      * by left.
      * right. exists r. split; [left|done].
      * right. exists r'. split; [by right|done].
    + intros [?|(r' & [->|Hin]%elem_of_cons & Ha)].
      * left. by left.
      * left. by right.
      * right. eauto.
Qed.

(** X14. With [pull_varattnos] adding the attributes of an expression to the
    set, the attributes fetched from the remote side are those of the
    target list and those of the clauses kept local, and no others: the
    attributes of a clause that is sent to the remote side are not fetched
    on its account. *)
Theorem sqliteGetForeignRelSize_attrs_used :
  forall (target_attrs : gset Z) (baserestrictinfo : list nat) (a : Z),
    a ∈ attrs_used (sqliteGetForeignRelSize Expr ri_clause is_foreign_expr
                      (fun e s => s ∪ varattnos e) target_attrs baserestrictinfo) <->
    a ∈ target_attrs \/
    exists r, r ∈ baserestrictinfo /\ is_foreign_expr (ri_clause r) = false /\
              a ∈ varattnos (ri_clause r).
Proof.
  intros target base a. unfold SqliteFdw.sqliteGetForeignRelSize. cbn [attrs_used].
  destruct (classify_conds_filter Expr ri_clause is_foreign_expr base
              {| remote_conds := []; local_conds := []; attrs_used := target |})
    as (_ & -> & ->).
  cbn [local_conds attrs_used app]. rewrite pull_local_attrs_elem_of. split.
  - intros [?|(r & [Hr Hin]%list_elem_of_filter & Ha)]; [by left|right].
    exists r. split; [done|]. split; [|done].
    by destruct (is_foreign_expr (ri_clause r)).
  - intros [?|(r & Hin & Hr & Ha)]; [by left|right].
    exists r. split; [|done]. apply list_elem_of_filter. split; [|done].
    by rewrite Hr.
Qed.

End PlannerMoreFacts.

Lemma sqliteGetForeignPlan_does_not_reclassify_witness :
  let ri_clause : nat -> nat := fun r => r in
  let ri_pseudoconstant : nat -> bool := fun r => false in
  let fpinfo := SqliteFdw.mkRelInfo [1] [2] ∅ in
  SqliteFdw.sqliteGetForeignPlan nat ri_clause ri_pseudoconstant (fun _ => true) fpinfo [1; 2]
  = SqliteFdw.sqliteGetForeignPlan nat ri_clause ri_pseudoconstant (fun _ => false) fpinfo [1; 2].
Proof.
  intros ri_clause ri_pseudoconstant fpinfo.
  apply (sqliteGetForeignPlan_does_not_reclassify nat ri_clause ri_pseudoconstant).
  intros r Hin _. cbn.
  apply elem_of_cons in Hin as [->|Hin]; [left; left|].
  apply list_elem_of_singleton in Hin as ->. right. left.
Defined.

(** ** A scan from begin to end *)

Section ScanDriverFacts.

Import Sqlite SqliteFdw ScanDriver.

Variable sqlite3_open_status : string -> Z.
Variable engine : string -> string -> option prepared.

#[local] Abbreviation sqliteBeginForeignScan :=
  (sqliteBeginForeignScan sqlite3_open_status engine).
#[local] Abbreviation run_scan := (run_scan sqlite3_open_status engine).

Lemma sqlite3_finalize_live (s : nat) (w : world) (st : sqlite3_stmt) :
  stmts w !! s = Some st ->
  sqlite3_finalize (Some s) w =
    (Ok SQLITE_OK,
     {| conns := conns w; stmts := delete s (stmts w); next_handle := next_handle w;
        trace := trace w ++ [call_finalize s SQLITE_OK] |}).
Proof. intros Hs. unfold sqlite3_finalize. by rewrite Hs. Qed.

Lemma sqlite3_close_idle (d : nat) (w : world) (filename : string) :
  conns w !! d = Some filename ->
  (forall h st, stmts w !! h = Some st -> stmt_db st <> d) ->
  sqlite3_close d w =
    (Ok SQLITE_OK,
     {| conns := delete d (conns w); stmts := stmts w; next_handle := next_handle w;
        trace := trace w ++ [call_close d SQLITE_OK] |}).
Proof.
  intros Hd Hidle. unfold sqlite3_close, has_statements. rewrite Hd.
  rewrite bool_decide_eq_false_2; [done|].
  intros (h & st & Hst & Hdb)%map_Exists_lookup. by apply (Hidle h st).
Qed.

Lemma sqlitePrepare_failed (d : nat) (w : world) (filename sql : string) :
  conns w !! d = Some filename ->
  engine filename sql = None ->
  (forall h st, stmts w !! h = Some st -> stmt_db st <> d) ->
  sqlitePrepare engine d sql w =
    (Error "SQL error during prepare",
     {| conns := delete d (conns w); stmts := stmts w; next_handle := next_handle w;
        trace := (trace w ++ [call_prepare d sql None SQLITE_ERROR])
                 ++ [call_close d SQLITE_OK] |}).
Proof.
  intros Hd Hq Hidle. unfold sqlitePrepare, sqlite3_prepare_v2, mbind, M_bind.
  rewrite Hd, Hq. cbn [fst snd negb Z.eqb SQLITE_ERROR SQLITE_OK].
  rewrite (sqlite3_close_idle d _ filename); [done|done|done].
Qed.

Lemma column_texts_current (s : option nat) (w : world) (count : nat) :
  forall x : nat,
    column_texts s x count w =
      (Ok ((fun i => current_row s w !! i ≫= cell_text) <$> seq x count), w).
Proof.
  induction count as [|count IH]; intros x; cbn [column_texts seq fmap list_fmap]; [done|].
  unfold mbind, M_bind, sqlite3_column_text. by rewrite IH.
Qed.

Lemma row_values_seq (row : list cell) :
  (fun i => row !! i ≫= cell_text) <$> seq 0 (length row) = row_values row.
Proof.
  unfold row_values. apply list_eq. intros i. rewrite !list_lookup_fmap.
  destruct (decide (i < length row)) as [Hlt|Hge].
  - rewrite lookup_seq_lt by done. cbn.
    destruct (lookup_lt_is_Some_2 row i Hlt) as [c Hc]. by rewrite Hc.
  - rewrite lookup_seq_ge by lia. rewrite lookup_ge_None_2 by lia. done.
Qed.

(** [BuildTupleFromCStrings] on an array as long as the tuple is wide
    reads no cell twice and none past the end. *)
Lemma BuildTupleFromCStrings_full (row : list cell) :
  BuildTupleFromCStrings (length row) (row_values row) = row_tuple row.
Proof.
  unfold BuildTupleFromCStrings, row_values, row_tuple. apply list_eq. intros i.
  rewrite !list_lookup_fmap.
  destruct (decide (i < length row)) as [Hlt|Hge].
  - rewrite lookup_seq_lt by done. cbn. rewrite list_lookup_fmap.
    destruct (lookup_lt_is_Some_2 row i Hlt) as [c Hc]. rewrite Hc. cbn.
    unfold column_of_cell. by destruct (cell_text c).
  - rewrite lookup_seq_ge by lia. rewrite lookup_ge_None_2 by lia. done.
Qed.

Lemma iterate_row :
  forall (festate : SQLiteFdwExecutionState) (natts s : nat) (w : world)
         (st : sqlite3_stmt) (row : list cell),
    stmt festate = Some s ->
    stmts w !! s = Some st ->
    p_rows (stmt_result st) !! stmt_pos st = Some row ->
    p_ncols (stmt_result st) = length row ->
    length row = natts ->
    sqliteIterateForeignScan festate natts w =
      (Ok (Some (row_tuple row)),
       {| conns := conns w; stmts := <[s := stepped st]> (stmts w);
          next_handle := next_handle w;
          trace := trace w ++ [call_step (Some s) SQLITE_ROW] |}).
Proof.
  intros festate natts s w st row Hfe Hs Hrow Hcols Hnatts.
  unfold sqliteIterateForeignScan, mbind, M_bind. rewrite Hfe.
  rewrite (sqlite3_step_row s w st row Hs Hrow).
  change (SQLITE_ROW =? SQLITE_ROW)%Z with true. cbn iota.
  set (w1 := {| conns := conns w; stmts := <[s := stepped st]> (stmts w);
                next_handle := next_handle w;
                trace := trace w ++ [call_step (Some s) SQLITE_ROW] |}).
  assert (Hs1 : stmts w1 !! s = Some (stepped st)) by apply lookup_insert_eq.
  unfold sqlite3_column_count. cbn [mbind option_bind]. rewrite Hs1.
  cbn [fmap option_fmap option_map default from_option id stmt_result stepped].
  rewrite column_texts_current, (current_row_stepped s w1 st row Hs1 Hrow).
  rewrite Hcols, row_values_seq. cbn [mret M_ret].
  by rewrite <- Hnatts, BuildTupleFromCStrings_full.
Qed.


Lemma iterate_end_of_data :
  forall (festate : SQLiteFdwExecutionState) (natts s : nat) (w : world)
         (st : sqlite3_stmt),
    stmt festate = Some s ->
    stmts w !! s = Some st ->
    length (p_rows (stmt_result st)) <= stmt_pos st ->
    sqliteIterateForeignScan festate natts w =
      (Ok None, log (call_step (Some s) SQLITE_DONE) w).
Proof.
  intros festate natts s w st Hfe Hs Hpos.
  unfold sqliteIterateForeignScan, mbind, M_bind. rewrite Hfe.
  rewrite (sqlite3_step_done s w st Hs) by (by apply lookup_ge_None).
  reflexivity.
Qed.


(** Fetching until the slot is empty returns the rows the statement has
    left, in order, provided the fuel allows one call more than there are
    rows. *)
Lemma fetch_rows_all (festate : SQLiteFdwExecutionState) (natts s : nat)
    (rest : list (list cell)) :
  stmt festate = Some s ->
  Forall (fun row => length row = natts) rest ->
  forall (fuel : nat) (w : world) (st : sqlite3_stmt),
    stmts w !! s = Some st ->
    drop (stmt_pos st) (p_rows (stmt_result st)) = rest ->
    p_ncols (stmt_result st) = natts ->
    length rest < fuel ->
    exists (w' : world) (st' : sqlite3_stmt),
      fetch_rows fuel festate natts w = (Ok (row_tuple <$> rest), w') /\
      conns w' = conns w /\
      next_handle w' = next_handle w /\
      stmts w' = <[s := st']> (stmts w).
Proof.
  intros Hfe Hwidth. induction Hwidth as [|row rest Hrow Hwidth IH];
    intros fuel w st Hs Hdrop Hcols Hfuel.
  - destruct fuel as [|fuel]; [cbn in Hfuel; lia|]. cbn [fetch_rows].
    unfold mbind, M_bind.
    rewrite (iterate_end_of_data festate natts s w st Hfe Hs).
    + exists (log (call_step (Some s) SQLITE_DONE) w), st.
      split; [done|]. cbn. by rewrite insert_id.
    + apply lookup_ge_None. by apply drop_nil_lookup.
  - destruct fuel as [|fuel]; [cbn in Hfuel; lia|]. cbn [fetch_rows].
    apply drop_cons_lookup in Hdrop as [Hlook Hdrop].
    unfold mbind, M_bind.
    rewrite (iterate_row festate natts s w st row Hfe Hs Hlook)
      by congruence.
    set (w1 := {| conns := conns w; stmts := <[s := stepped st]> (stmts w);
                  next_handle := next_handle w;
                  trace := trace w ++ [call_step (Some s) SQLITE_ROW] |}).
    destruct (IH fuel w1 (stepped st)) as (w' & st' & Hrun & Hc & Hn & Hst).
    + apply lookup_insert_eq.
    + done.
    + done.
    + cbn in Hfuel. lia.
    + exists w', st'. rewrite Hrun. split; [done|]. split; [done|]. split; [done|].
      rewrite Hst. unfold w1. cbn [stmts]. by rewrite insert_insert_eq.
Qed.


(** X18. A parameter that is not null and whose type is none of INT2, INT4 and
    INT8 is not bound at all: no call is made and no error is raised. *)
Theorem sqlite_bind_param_value_skips_other_types :
  forall (festate : SQLiteFdwExecutionState) (index : Z) (p : param) (w : world),
    has_binding p = false ->
    sqlite_bind_param_value festate index p w = (Ok tt, w).
Proof.
  intros festate index p w Hp. unfold has_binding in Hp.
  apply orb_false_iff in Hp as [Hp H8]. apply orb_false_iff in Hp as [Hp H4].
  apply orb_false_iff in Hp as [Hn H2].
  unfold sqlite_bind_param_value, mbind, M_bind. by rewrite Hn, H2, H4, H8.
Qed.

Lemma sqlite_bind_param_value_bound (festate : SQLiteFdwExecutionState) (index : Z)
    (p : param) (w : world) :
  has_binding p = true ->
  sqlite_bind_param_value festate index p w =
    (rc ← sqlite3_bind (stmt festate) index;
     if negb (rc =? SQLITE_OK)%Z
     then _ ← cleanup_ festate; ereport "error while trying to bind param"
     else mret tt) w.
Proof.
  intros Hp. unfold has_binding in Hp. unfold sqlite_bind_param_value.
  destruct (isNull p); [done|].
  destruct (ptype p =? INT2OID)%N; [done|].
  destruct (ptype p =? INT4OID)%N; [done|].
  destruct (ptype p =? INT8OID)%N; [done|]. done.
Qed.


Lemma sqlite_bind_param_values_surplus (d s : nat) (sql filename : string)
    (attrs : list nat) (st : sqlite3_stmt) (params : list param) :
  let festate := {| db := Some d; stmt := Some s; query := Some sql;
                    retrieved_attrs := attrs |} in
  Forall (fun p => has_binding p = true) params ->
  forall (i : nat) (w : world),
    stmts w !! s = Some st ->
    conns w !! d = Some filename ->
    (forall h st0, stmts w !! h = Some st0 -> h <> s -> stmt_db st0 <> d) ->
    i <= p_nparams (stmt_result st) < i + length params ->
    exists w' : world,
      sqlite_bind_param_values festate params (Z.of_nat i) w
        = (Error "error while trying to bind param", w') /\
      conns w' = delete d (conns w) /\
      stmts w' = delete s (stmts w).
Proof.
  intros festate Hall. induction Hall as [|p params Hp Hall IH];
    intros i w Hs Hd Hidle Hrange; [cbn in Hrange; lia|].
  cbn [sqlite_bind_param_values length] in *.
  unfold mbind at 1. unfold M_bind at 1.
  rewrite (sqlite_bind_param_value_bound _ _ _ _ Hp).
  unfold mbind at 1. unfold M_bind at 1. unfold sqlite3_bind.
  cbn [stmt festate mbind option_bind]. rewrite Hs.
  replace (Z.of_nat i + 1)%Z with (Z.of_nat (S i)) by lia.
  destruct (decide (S i <= p_nparams (stmt_result st))) as [Hle|Hgt].
  - assert (Hin : ((1 <=? Z.of_nat (S i)) &&
                   (Z.of_nat (S i) <=? Z.of_nat (p_nparams (stmt_result st))))%Z = true).
    { apply andb_true_iff. split; apply Z.leb_le; lia. }
    rewrite Hin. change (negb (SQLITE_OK =? SQLITE_OK)%Z) with false. cbn iota.
    cbn [mret M_ret].
    destruct (IH (S i) (log (call_bind (Some s) (Z.of_nat (S i)) SQLITE_OK) w))
      as (w' & Hrun & Hc & Hst); [done|done|done|lia|].
    exists w'. by rewrite Hrun.
  - assert (Hout : ((1 <=? Z.of_nat (S i)) &&
                    (Z.of_nat (S i) <=? Z.of_nat (p_nparams (stmt_result st))))%Z = false).
    { apply andb_false_iff. right. apply Z.leb_gt. lia. }
    rewrite Hout. change (negb (SQLITE_RANGE =? SQLITE_OK)%Z) with true. cbn iota.
    set (w1 := log (call_bind (Some s) (Z.of_nat (S i)) SQLITE_RANGE) w).
    unfold cleanup_, mbind, M_bind. cbn [stmt db query retrieved_attrs festate].
    rewrite (sqlite3_finalize_live s w1 st Hs).
    cbn [mret M_ret stmt db query retrieved_attrs].
    rewrite (sqlite3_close_idle d _ filename).
    + cbn [mret M_ret stmt db query retrieved_attrs]. unfold pfree, ereport.
      eexists. split; [reflexivity|]. done.
    + done.
    + cbn [stmts]. intros h st0 Hl.
      destruct (decide (h = s)) as [->|Hne]; [by rewrite lookup_delete_eq in Hl|].
      rewrite lookup_delete_ne in Hl by done. by apply (Hidle h st0).
Qed.

(** X20. With more parameters than the query has placeholders, all of them
    having a binding call, the first surplus bind fails, and
    [sqliteBeginForeignScan] raises the bind error after the statement has
    been finalized and the connection closed: the engine has the
    connections and statements it had before. *)
Theorem sqliteBeginForeignScan_bind_failure_releases :
  forall (opt : SqliteOpt) (sql : string) (attrs : list nat) (params : list param)
         (p : prepared) (w : world),
    world_ok w ->
    sqlite3_open_status (database opt) = SQLITE_OK ->
    engine (database opt) sql = Some p ->
    Forall (fun p => has_binding p = true) params ->
    p_nparams p < length params ->
    exists w' : world,
      sqliteBeginForeignScan opt (sql, attrs) params w
        = (Error "error while trying to bind param", w') /\
      conns w' = conns w /\ stmts w' = stmts w.
Proof.
  intros opt sql attrs params p w [Hconns Hstmts] Hopen Hq Hall Hmore.
  unfold SqliteFdw.sqliteBeginForeignScan, mbind, M_bind.
  rewrite (sqliteOpen_ok _ _ _ Hopen).
  set (d := next_handle w).
  set (w1 := {| conns := <[d := database opt]> (conns w); stmts := stmts w;
                next_handle := S d;
                trace := trace w ++ [call_open (database opt) d SQLITE_OK] |}).
  assert (Hd : conns w1 !! d = Some (database opt)) by apply lookup_insert_eq.
  cbn [fst snd]. rewrite (sqlitePrepare_ok engine d w1 _ _ p Hd Hq).
  set (s := next_handle w1).
  set (w2 := {| conns := conns w1; stmts := <[s := mkStmt d sql p 0]> (stmts w1);
                next_handle := S s;
                trace := trace w1 ++ [call_prepare d sql (Some s) SQLITE_OK] |}).
  cbn [db stmt query retrieved_attrs].
  assert (Hpos : (0 <? length params)%nat = true) by (apply Nat.ltb_lt; lia).
  rewrite Hpos.
  assert (Hnone_d : conns w !! d = None).
  { destruct (conns w !! d) eqn:Hl; [|done].
    assert (d < next_handle w); [apply Hconns; eauto|]. unfold d in *. lia. }
  assert (Hnone_s : stmts w !! s = None).
  { destruct (stmts w !! s) as [st0|] eqn:Hl; [|done].
    destruct (Hstmts s st0 Hl) as [Hlt _].
    assert (s = S (next_handle w)) by reflexivity. lia. }
  destruct (sqlite_bind_param_values_surplus d s sql (database opt) attrs
              (mkStmt d sql p 0) params Hall 0 w2) as (w' & Hrun & Hc & Hst).
  - apply lookup_insert_eq.
  - done.
  - unfold w2, w1. cbn [stmts]. intros h st0 Hl Hne.
    rewrite lookup_insert_ne in Hl by done.
    destruct (Hstmts h st0 Hl) as [_ Hlt]. unfold d. lia.
  - cbn [stmt_result p_nparams]. lia.
  - change (Z.of_nat 0) with 0%Z in Hrun. rewrite Hrun.
    exists w'. split; [done|]. rewrite Hc, Hst. unfold w2, w1. cbn [conns stmts].
    split; by apply delete_insert_id.
Qed.


End ScanDriverFacts.

Section ScanWitnesses.

Import Sqlite SqliteFdw ScanDriver Scenario.

(** The world after a scan of all columns of [items] has begun:
    connection 1, statement 2 before its first row. *)
#[local] Abbreviation items_rows :=
  [ [int_cell "1" 1; text_cell "nut"; text_cell "10.5"];
    [int_cell "2" 2; text_cell "bolt"; text_cell "20.0"] ].
#[local] Abbreviation scan_stmt pos :=
  (mkStmt 1 all_columns_query (mkPrepared 3 0 items_rows) pos).
#[local] Abbreviation scan_world pos :=
  {| conns := {[ 1 := "/data/shop.db" ]}; stmts := {[ 2 := scan_stmt pos ]};
     next_handle := 3; trace := [] |}.
#[local] Abbreviation scan_state :=
  {| db := Some 1; stmt := Some 2; query := Some all_columns_query;
     retrieved_attrs := [1; 2; 3] |}.
#[local] Abbreviation int4 v := {| ptype := INT4OID; pval := v; isNull := false |}.

Lemma world_ok_start : world_ok world_start.
Proof.
  split.
  - intros d [f Hf]. cbn in Hf. by rewrite lookup_empty in Hf.
  - intros h st Hst. cbn in Hst. by rewrite lookup_empty in Hst.
Qed.




Lemma sqlite_bind_param_value_skips_other_types_witness :
  sqlite_bind_param_value scan_state 1
    {| ptype := 25%N; pval := 0; isNull := false |} (scan_world 0)
  = (Ok tt, scan_world 0).
Proof.
  exact (sqlite_bind_param_value_skips_other_types scan_state 1
           {| ptype := 25%N; pval := 0; isNull := false |} (scan_world 0) eq_refl).
Defined.


Lemma sqliteBeginForeignScan_bind_failure_releases_witness :
  exists w' : world,
    sqliteBeginForeignScan every_file_opens items_db items_opt
      (all_columns_query, [1; 2; 3]) [int4 1] world_start
    = (Error "error while trying to bind param", w') /\
    conns w' = conns world_start /\ stmts w' = stmts world_start.
Proof.
  refine (sqliteBeginForeignScan_bind_failure_releases every_file_opens items_db
            items_opt all_columns_query [1; 2; 3] [int4 1]
            (mkPrepared 3 0 items_rows) world_start world_ok_start eq_refl eq_refl _ _).
  - repeat constructor.
  - cbn. lia.
Defined.


End ScanWitnesses.

(** ** The row estimate and EXPLAIN *)

Section ProbeFacts.

Import Sqlite SqliteFdw ScanDriver Probe.

Variable sqlite3_open_status : string -> Z.
Variable engine : string -> string -> option prepared.
Variable double : Type.
Variable double_to_int : double -> Z.
Variable double_zero : double.
Variable scanstatus_est : string -> string -> option double.

#[local] Abbreviation GetEstimatedRows :=
  (GetEstimatedRows sqlite3_open_status engine double double_to_int double_zero
     scanstatus_est).
#[local] Abbreviation sqliteExplainForeignScan :=
  (sqliteExplainForeignScan sqlite3_open_status engine).


Lemma string_length_app (a b : string) :
  String.length (a +:+ b) = String.length a + String.length b.
Proof.
  induction a as [|x a IH]; [done|].
  change (S (String.length (a +:+ b)) = S (String.length a + String.length b)).
  by rewrite IH.
Qed.

Lemma substring_whole (s : string) :
  forall n, String.length s <= n -> String.substring 0 n s = s.
Proof.
  induction s as [|x s IH]; intros n Hn.
  - by destruct n.
  - destruct n as [|n]; [cbn in Hn; lia|].
    cbn [String.substring]. rewrite IH; [done|]. cbn in Hn. lia.
Qed.

(** The buffer of [strlen(festate->query) + 20] bytes is large enough:
    [snprintf] stores the whole of the EXPLAIN query. *)
Lemma explain_query_fits (q : string) :
  snprintf (String.length q + 20) ("EXPLAIN QUERY PLAN " +:+ q)
  = "EXPLAIN QUERY PLAN " +:+ q.
Proof.
  unfold snprintf. apply substring_whole.
  rewrite string_length_app. cbn [String.length]. lia.
Qed.

Lemma explain_rows_run (rest : list (list cell)) :
  forall (s : nat) (w : world) (st : sqlite3_stmt) (es : list (string * option string)),
    stmts w !! s = Some st ->
    drop (stmt_pos st) (p_rows (stmt_result st)) = rest ->
    exists (w' : world) (st' : sqlite3_stmt),
      explain_rows (length rest) (Some s) es w
        = (Ok (es ++ ((fun row => ("sqlite plan", row !! 3 ≫= cell_text)) <$> rest)), w') /\
      conns w' = conns w /\
      next_handle w' = next_handle w /\
      stmts w' = <[s := st']> (stmts w).
Proof.
  induction rest as [|row rest IH]; intros s w st es Hs Hdrop;
    cbn [length explain_rows fmap list_fmap].
  - exists (log (call_step (Some s) SQLITE_DONE) w), st.
    unfold mbind, M_bind.
    rewrite (sqlite3_step_done s w st Hs) by (by apply drop_nil_lookup).
    rewrite app_nil_r. split; [done|]. cbn. by rewrite insert_id.
  - apply drop_cons_lookup in Hdrop as [Hrow Hdrop].
    unfold mbind, M_bind. rewrite (sqlite3_step_row s w st row Hs Hrow).
    change (SQLITE_ROW =? SQLITE_ROW)%Z with true. cbn iota.
    set (w1 := {| conns := conns w; stmts := <[s := stepped st]> (stmts w);
                  next_handle := next_handle w;
                  trace := trace w ++ [call_step (Some s) SQLITE_ROW] |}).
    assert (Hs1 : stmts w1 !! s = Some (stepped st)) by apply lookup_insert_eq.
    unfold sqlite3_column_text.
    rewrite (current_row_stepped s w1 st row Hs1 Hrow).
    destruct (IH s w1 (stepped st) (es ++ [("sqlite plan", row !! 3 ≫= cell_text)])
                Hs1 Hdrop) as (w' & st' & Hrun & Hc & Hn & Hst).
    exists w', st'. rewrite Hrun, <- app_assoc. split; [done|].
    split; [done|]. split; [done|].
    rewrite Hst. unfold w1. cbn [stmts]. by rewrite insert_insert_eq.
Qed.

(** X23. EXPLAIN of a scan opens a connection of its own, asks the engine for
    the plan of the remote query and shows column 3 of every row of it, in
    order, after the query text itself when VERBOSE is set; the statement
    and the connection are released before it returns. *)
Theorem sqliteExplainForeignScan_output :
  forall (verbose : bool) (opt : SqliteOpt) (q : string) (p : prepared) (w : world),
    world_ok w ->
    sqlite3_open_status (database opt) = SQLITE_OK ->
    engine (database opt) ("EXPLAIN QUERY PLAN " +:+ q) = Some p ->
    exists w' : world,
      sqliteExplainForeignScan verbose opt q w =
        (Ok ((if verbose then [("sqlite query", Some q)] else [])
             ++ ((fun row => ("sqlite plan", row !! 3 ≫= cell_text)) <$> p_rows p)), w') /\
      conns w' = conns w /\ stmts w' = stmts w.
Proof.
  intros verbose opt q p w [Hconns Hstmts] Hopen Hq.
  unfold Probe.sqliteExplainForeignScan, mbind, M_bind.
  rewrite explain_query_fits.
  rewrite (sqliteOpen_ok _ _ _ Hopen).
  set (d := next_handle w).
  set (w1 := {| conns := <[d := database opt]> (conns w); stmts := stmts w;
                next_handle := S d;
                trace := trace w ++ [call_open (database opt) d SQLITE_OK] |}).
  assert (Hd : conns w1 !! d = Some (database opt)) by apply lookup_insert_eq.
  assert (Hnone_d : conns w !! d = None).
  { destruct (conns w !! d) eqn:Hl; [|done].
    assert (d < next_handle w); [apply Hconns; eauto|]. unfold d in *. lia. }
  rewrite (sqlitePrepare_ok engine d w1 _ _ p Hd Hq).
  set (s := next_handle w1).
  set (sql := "EXPLAIN QUERY PLAN " +:+ q).
  set (w2 := {| conns := conns w1; stmts := <[s := mkStmt d sql p 0]> (stmts w1);
                next_handle := S s;
                trace := trace w1 ++ [call_prepare d sql (Some s) SQLITE_OK] |}).
  assert (Hs : stmts w2 !! s = Some (mkStmt d sql p 0)) by apply lookup_insert_eq.
  assert (Hnone_s : stmts w !! s = None).
  { destruct (stmts w !! s) as [st0|] eqn:Hl; [|done].
    destruct (Hstmts s st0 Hl) as [Hlt _].
    assert (s = S (next_handle w)) by reflexivity. lia. }
  assert (Hleft : rows_left (Some s) w2 = length (p_rows p)).
  { unfold rows_left. cbn [mbind option_bind]. rewrite Hs. cbn. lia. }
  rewrite Hleft.
  destruct (explain_rows_run (p_rows p) s w2 _
              (if verbose then [("sqlite query", Some q)] else []) Hs eq_refl)
    as (w3 & st' & Hrun & Hc3 & Hn3 & Hst3).
  rewrite Hrun.
  assert (Hlive : stmts w3 !! s = Some st') by (rewrite Hst3; apply lookup_insert_eq).
  rewrite (sqlite3_finalize_live s w3 st' Hlive).
  assert (Hback : delete s (stmts w3) = stmts w).
  { rewrite Hst3. unfold w2, w1. cbn [stmts].
    rewrite insert_insert_eq. by apply delete_insert_id. }
  rewrite (sqlite3_close_idle d _ (database opt)).
  - eexists. split; [reflexivity|]. cbn [conns stmts]. split; [|done].
    rewrite Hc3. unfold w2, w1. cbn [conns]. by apply delete_insert_id.
  - cbn [conns]. by rewrite Hc3.
  - cbn [stmts]. rewrite Hback. intros h st0 Hl.
    destruct (Hstmts h st0 Hl) as [_ Hlt]. unfold d. lia.
Qed.

End ProbeFacts.

Section ProbeWitnesses.

Import Sqlite SqliteFdw ScanDriver Scenario Probe.

(** A database that also answers the EXPLAIN of the price query, with the
    one row SQLite gives for a full scan. *)
#[local] Abbreviation explaining_db :=
  (fun filename sql : string =>
     if bool_decide (sql = "EXPLAIN QUERY PLAN SELECT price FROM items")
     then Some (mkPrepared 4 0 [[int_cell "2" 2; int_cell "0" 0; int_cell "0" 0;
                                 text_cell "SCAN items"]])
     else items_db filename sql).


Lemma sqliteExplainForeignScan_output_witness :
  exists w' : world,
    sqliteExplainForeignScan every_file_opens explaining_db true items_opt price_query
      world_start
    = (Ok [("sqlite query", Some price_query); ("sqlite plan", Some "SCAN items")], w') /\
    conns w' = conns world_start /\ stmts w' = stmts world_start.
Proof.
  exact (sqliteExplainForeignScan_output every_file_opens explaining_db true items_opt
           price_query
           (mkPrepared 4 0 [[int_cell "2" 2; int_cell "0" 0; int_cell "0" 0;
                             text_cell "SCAN items"]])
           world_start world_ok_start eq_refl eq_refl).
Defined.

End ProbeWitnesses.

(** ** IMPORT FOREIGN SCHEMA, for any database *)

Section ImportMoreFacts.

Import Sqlite SqliteFdw ScanDriver Scenario.

Variable sqlite3_open_status : string -> Z.
Variable engine : string -> string -> option prepared.
Variable defGetBoolean : DefElem -> result bool.
Variable quote_identifier : string -> string.
Variable quote_literal_cstr : string -> string.

#[local] Abbreviation sqliteImportForeignSchema :=
  (sqliteImportForeignSchema sqlite3_open_status engine defGetBoolean
     quote_identifier quote_literal_cstr).
#[local] Abbreviation parse_statement_options := (parse_statement_options defGetBoolean).
#[local] Abbreviation table_query := (table_query quote_literal_cstr).
#[local] Abbreviation table_command := (table_command quote_identifier).

(** X24. A successful import returns one command per row of the table query,
    in the order of the rows, each built from the rows [PRAGMA
    table_info] answers for that table; and for every table imported one
    statement more is live afterwards than before. *)
Theorem sqliteImportForeignSchema_one_command_per_table :
  forall (stmt : ImportForeignSchemaStmt) (f_server_options : list DefElem)
         (import_default import_not_null : bool) (svr_database : string)
         (tables : prepared) (table_info : string -> prepared) (w : world),
    remote_schema stmt = "public" \/ remote_schema stmt = "main" ->
    parse_statement_options (options stmt) false true
      = Ok (import_default, import_not_null) ->
    find_database f_server_options = Some svr_database ->
    sqlite3_open_status svr_database = SQLITE_OK ->
    engine svr_database (table_query stmt) = Some tables ->
    (forall row, row ∈ p_rows tables ->
       engine svr_database (table_info_query (table_name row))
       = Some (table_info (table_name row))) ->
    handles_allocated w ->
    exists w' : world,
      sqliteImportForeignSchema stmt f_server_options w
      = (Ok ((fun row => table_command stmt import_default import_not_null
                           (table_name row) (p_rows (table_info (table_name row))))
               <$> p_rows tables), w') /\
      size (stmts w') = size (stmts w) + length (p_rows tables).
Proof.
  intros stmt fso import_default import_not_null file tables table_info w.
  apply sqliteImportForeignSchema_run.
Qed.

Lemma parse_statement_options_unknown (def : DefElem) (opts : list DefElem) :
  def ∈ opts ->
  defname def <> "import_default" ->
  defname def <> "import_not_null" ->
  forall import_default import_not_null : bool,
    exists msg : string,
      parse_statement_options opts import_default import_not_null = Error msg.
Proof.
  intros Hin Hd Hn. induction opts as [|def' rest IH]; [by apply elem_of_nil in Hin|].
  intros import_default import_not_null. cbn [SqliteFdw.parse_statement_options].
  rewrite !strcmp_zero.
  apply elem_of_cons in Hin as [<-|Hin].
  - rewrite (bool_decide_eq_false_2 _ Hd), (bool_decide_eq_false_2 _ Hn). eauto.
  - repeat case_bool_decide; [| |by eauto];
      (destruct (defGetBoolean def') as [b|msg]; [by apply IH|by eauto]).
Qed.

(** X25. An option of the statement whose name is neither [import_default] nor
    [import_not_null] makes the import fail, whatever the other options
    are, before anything is asked of the engine: no file is opened. *)
Theorem sqliteImportForeignSchema_unknown_option :
  forall (stmt : ImportForeignSchemaStmt) (f_server_options : list DefElem)
         (def : DefElem) (w : world),
    def ∈ options stmt ->
    defname def <> "import_default" ->
    defname def <> "import_not_null" ->
    exists msg : string,
      sqliteImportForeignSchema stmt f_server_options w = (Error msg, w).
Proof.
  intros stmt fso def w Hin Hd Hn. unfold SqliteFdw.sqliteImportForeignSchema.
  destruct (negb _ && negb _); [by eexists|].
  destruct (parse_statement_options_unknown def (options stmt) Hin Hd Hn false true)
    as [msg ->].
  by eexists.
Qed.

Lemma last_cons_default {A B} (f : A -> B) (x : A) (l : list A) (d : B) :
  default d (f <$> last (x :: l)) = default (f x) (f <$> last l).
Proof. rewrite last_cons. by destruct (last l). Qed.

Lemma parse_statement_options_values (value : DefElem -> bool) (opts : list DefElem) :
  Forall (fun def => (defname def = "import_default" \/ defname def = "import_not_null")
                     /\ defGetBoolean def = Ok (value def)) opts ->
  forall import_default import_not_null : bool,
    parse_statement_options opts import_default import_not_null =
      Ok (default import_default
            (value <$> last (filter (fun def => defname def = "import_default") opts)),
          default import_not_null
            (value <$> last (filter (fun def => defname def = "import_not_null") opts))).
Proof.
  induction 1 as [|def rest [Hname Hval] _ IH]; intros import_default import_not_null;
    cbn [SqliteFdw.parse_statement_options]; [done|].
  rewrite !strcmp_zero, Hval, !filter_cons.
  destruct Hname as [Hname|Hname]; rewrite Hname.
  - rewrite (bool_decide_eq_true_2 _ eq_refl).
    rewrite decide_True by done. rewrite decide_False by done.
    by rewrite IH, last_cons_default.
  - rewrite bool_decide_eq_false_2 by done.
    rewrite (bool_decide_eq_true_2 _ eq_refl).
    rewrite decide_False by done. rewrite decide_True by done.
    by rewrite IH, last_cons_default.
Qed.

(** X26. When every option of the statement is called [import_default] or
    [import_not_null] and has a boolean value, the options are accepted,
    and of several options of one name the last one counts; without an
    [import_default] option defaults are not imported, without an
    [import_not_null] option NOT NULL constraints are. *)
Theorem parse_statement_options_last_wins :
  forall (value : DefElem -> bool) (opts : list DefElem),
    Forall (fun def => (defname def = "import_default" \/ defname def = "import_not_null")
                       /\ defGetBoolean def = Ok (value def)) opts ->
    parse_statement_options opts false true =
      Ok (default false
            (value <$> last (filter (fun def => defname def = "import_default") opts)),
          default true
            (value <$> last (filter (fun def => defname def = "import_not_null") opts))).
Proof. intros value opts Hall. by apply parse_statement_options_values. Qed.

Lemma string_app_nil_r (s : string) : s +:+ "" = s.
Proof.
  induction s as [|x s IH]; [done|].
  change (String x (s +:+ "") = String x s). by rewrite IH.
Qed.

Lemma append_table_list_more (table_list : list string) :
  forall (relname : string) (query_tbl : string),
    append_table_list quote_literal_cstr query_tbl (relname :: table_list) false =
      query_tbl +:+ ", "
      +:+ String.concat ", " (quote_literal_cstr <$> relname :: table_list).
Proof.
  induction table_list as [|relname' rest IH]; intros relname query_tbl.
  - cbn [append_table_list fmap list_fmap String.concat].
    by rewrite string_app_assoc.
  - cbn [append_table_list]. cbn [append_table_list] in IH. rewrite IH.
    cbn [fmap list_fmap String.concat]. by rewrite !string_app_assoc.
Qed.

Lemma append_table_list_concat (table_list : list string) (query_tbl : string) :
  append_table_list quote_literal_cstr query_tbl table_list true =
    query_tbl +:+ String.concat ", " (quote_literal_cstr <$> table_list).
Proof.
  destruct table_list as [|relname [|relname' rest]].
  - cbn. by rewrite string_app_nil_r.
  - done.
  - cbn [append_table_list].
    pose proof (append_table_list_more rest relname'
                  (query_tbl +:+ quote_literal_cstr relname)) as Hmore.
    cbn [append_table_list] in Hmore. rewrite Hmore.
    cbn [fmap list_fmap String.concat]. by rewrite !string_app_assoc.
Qed.

(** X27. The table query is the query for all user tables, followed for LIMIT
    TO by [AND name IN (...)] and for EXCEPT by [AND name NOT IN (...)],
    the list holding the names of the statement as quoted literals,
    separated by a comma and a blank, in the order of the statement. *)
Theorem table_query_lists_the_tables :
  forall stmt : ImportForeignSchemaStmt,
    table_query stmt =
      all_tables_query +:+
      match list_type stmt with
      | FDW_IMPORT_SCHEMA_ALL => ""
      | FDW_IMPORT_SCHEMA_LIMIT_TO =>
          " AND name IN ("
          +:+ String.concat ", " (quote_literal_cstr <$> table_list stmt) +:+ ")"
      | FDW_IMPORT_SCHEMA_EXCEPT =>
          " AND name NOT IN ("
          +:+ String.concat ", " (quote_literal_cstr <$> table_list stmt) +:+ ")"
      end.
Proof.
  intros stmt. unfold SqliteFdw.table_query.
  destruct (list_type stmt); cbn [bool_decide decide_rel orb]; [done| |].
  - rewrite (bool_decide_eq_true_2 _ eq_refl). cbn [orb].
    rewrite bool_decide_eq_false_2 by done.
    rewrite append_table_list_concat. by rewrite !string_app_assoc.
  - rewrite (bool_decide_eq_true_2 (FDW_IMPORT_SCHEMA_EXCEPT = FDW_IMPORT_SCHEMA_EXCEPT) eq_refl).
    rewrite orb_true_r.
    rewrite append_table_list_concat. by rewrite !string_app_assoc.
Qed.

(** X28. A type name that starts, whatever the case of its letters, with the
    four letters of [text] is translated to [text], however it goes on. *)
Theorem sqliteTranslateType_text_prefix :
  forall (str typname rest : string),
    str_tolower typname = "text" +:+ rest ->
    sqliteTranslateType str typname = str +:+ "text".
Proof.
  intros str typname rest Hlow. unfold sqliteTranslateType. rewrite Hlow.
  destruct rest; reflexivity.
Qed.

(** The buffer of [strlen(tbl_name) + 19 + 1] bytes allocated for the
    column query is filled exactly: the query has [strlen(tbl_name) + 19]
    characters, whatever the name of the table. *)
Lemma table_info_query_fills_buffer :
  forall tbl_name : string,
    String.length (table_info_query tbl_name) + 1 = String.length tbl_name + 19 + 1.
Proof.
  intros tbl_name. unfold table_info_query.
  rewrite !string_length_app. cbn [String.length]. lia.
Qed.


Lemma sqlitePrepare_failed_busy (d : nat) (w : world) (filename sql : string)
    (h : nat) (st : sqlite3_stmt) :
  conns w !! d = Some filename ->
  engine filename sql = None ->
  stmts w !! h = Some st ->
  stmt_db st = d ->
  sqlitePrepare engine d sql w =
    (Error "SQL error during prepare",
     log (call_close d SQLITE_BUSY) (log (call_prepare d sql None SQLITE_ERROR) w)).
Proof.
  intros Hd Hq Hst Hdb. unfold sqlitePrepare, sqlite3_prepare_v2, mbind, M_bind.
  rewrite Hd, Hq. cbn [fst snd negb Z.eqb SQLITE_ERROR SQLITE_OK].
  unfold sqlite3_close, has_statements. cbn [log conns stmts]. rewrite Hd.
  rewrite bool_decide_eq_true_2; [done|].
  apply map_Exists_lookup. eauto.
Qed.

(** X30. When the column query of the first table does not compile, the
    connection cannot be closed by [sqlitePrepare], the table statement
    being live; the [PG_CATCH] block finalizes that statement and closes
    the connection, so the import raises the error of the prepare with the
    connections and statements the engine had before. *)
Theorem sqliteImportForeignSchema_first_table_failure :
  forall (stmt : ImportForeignSchemaStmt) (f_server_options : list DefElem)
         (import_default import_not_null : bool) (svr_database : string)
         (tables : prepared) (row : list cell) (rest : list (list cell)) (w : world),
    remote_schema stmt = "public" \/ remote_schema stmt = "main" ->
    parse_statement_options (options stmt) false true
      = Ok (import_default, import_not_null) ->
    find_database f_server_options = Some svr_database ->
    sqlite3_open_status svr_database = SQLITE_OK ->
    engine svr_database (table_query stmt) = Some tables ->
    p_rows tables = row :: rest ->
    engine svr_database (table_info_query (table_name row)) = None ->
    world_ok w ->
    exists w' : world,
      sqliteImportForeignSchema stmt f_server_options w
        = (Error "SQL error during prepare", w') /\
      conns w' = conns w /\
      stmts w' = stmts w.
Proof.
  intros stmt fso import_default import_not_null file tables row rest w
    Hschema Hparse Hdb Hopen Htables Hrows Hq [Hconns Hstmts].
  unfold SqliteFdw.sqliteImportForeignSchema.
  assert (Hs : negb (strcmp (remote_schema stmt) "public" =? 0)%Z
               && negb (strcmp (remote_schema stmt) "main" =? 0)%Z = false).
  { destruct Hschema as [-> | ->]; reflexivity. }
  rewrite Hs, Hparse, Hdb.
  unfold mbind, M_bind. rewrite (sqliteOpen_ok _ _ _ Hopen).
  set (d := next_handle w).
  set (w1 := {| conns := <[d := file]> (conns w); stmts := stmts w;
                next_handle := S d;
                trace := trace w ++ [call_open file d SQLITE_OK] |}).
  assert (Hd : conns w1 !! d = Some file) by apply lookup_insert_eq.
  assert (Hnone_d : conns w !! d = None).
  { destruct (conns w !! d) eqn:Hl; [|done].
    assert (d < next_handle w); [apply Hconns; eauto|]. unfold d in *. lia. }
  unfold PG_TRY at 1. rewrite (sqlitePrepare_ok engine d w1 _ _ tables Hd Htables).
  set (t := next_handle w1).
  set (st := mkStmt d (table_query stmt) tables 0).
  set (w2 := {| conns := conns w1; stmts := <[t := st]> (stmts w1);
                next_handle := S t;
                trace := trace w1 ++ [call_prepare d (table_query stmt) (Some t) SQLITE_OK] |}).
  assert (Ht : stmts w2 !! t = Some st) by apply lookup_insert_eq.
  assert (Hnone_t : stmts w !! t = None).
  { destruct (stmts w !! t) as [st0|] eqn:Hl; [|done].
    destruct (Hstmts t st0 Hl) as [Hlt _].
    assert (t = S (next_handle w)) by reflexivity. lia. }
  assert (Hleft : rows_left (Some t) w2 = S (length rest)).
  { unfold rows_left. cbn [mbind option_bind]. rewrite Ht.
    unfold st. cbn [stmt_result stmt_pos]. rewrite Hrows. cbn [length]. lia. }
  assert (Hrow : p_rows (stmt_result st) !! stmt_pos st = Some row).
  { unfold st. cbn [stmt_result stmt_pos]. by rewrite Hrows. }
  unfold PG_TRY. rewrite Hleft. cbn [import_tables].
  unfold mbind, M_bind. rewrite (sqlite3_step_row t w2 st row Ht Hrow).
  change (SQLITE_ROW =? SQLITE_ROW)%Z with true. cbn iota.
  set (w3 := {| conns := conns w2; stmts := <[t := stepped st]> (stmts w2);
                next_handle := next_handle w2;
                trace := trace w2 ++ [call_step (Some t) SQLITE_ROW] |}).
  assert (Ht3 : stmts w3 !! t = Some (stepped st)) by apply lookup_insert_eq.
  assert (Hd3 : conns w3 !! d = Some file) by exact Hd.
  unfold sqlite3_column_text at 1.
  rewrite (current_row_stepped t w3 st row Ht3 Hrow).
  fold (table_name row).
  rewrite (sqlitePrepare_failed_busy d w3 file _ t (stepped st) Hd3 Hq Ht3 eq_refl).
  unfold import_catch, mbind, M_bind.
  set (w4 := log (call_close d SQLITE_BUSY)
               (log (call_prepare d (table_info_query (table_name row)) None
                       SQLITE_ERROR) w3)).
  assert (Ht4 : stmts w4 !! t = Some (stepped st)) by exact Ht3.
  rewrite (sqlite3_finalize_live t w4 _ Ht4). cbn [mret M_ret].
  assert (Hback : delete t (stmts w4) = stmts w).
  { unfold w4, w3, w2, w1. cbn [stmts log].
    rewrite insert_insert_eq. by apply delete_insert_id. }
  rewrite (sqlite3_close_idle d _ file).
  - eexists. split; [reflexivity|]. cbn [conns stmts]. split; [|done].
    unfold w4, w3, w2, w1. cbn [conns log]. by apply delete_insert_id.
  - exact Hd.
  - cbn [stmts]. rewrite Hback. intros h st0 Hl.
    destruct (Hstmts h st0 Hl) as [_ Hlt]. unfold d. lia.
Qed.

End ImportMoreFacts.

Section ImportWitnesses.

Import Sqlite SqliteFdw ScanDriver Scenario.

#[local] Abbreviation boolean_of :=
  (fun def : DefElem => bool_decide (defarg def = "true")).
#[local] Abbreviation import_all options :=
  {| server_name := "shop"; remote_schema := "main"; local_schema := "public";
     list_type := FDW_IMPORT_SCHEMA_ALL; table_list := []; options := options |}.
#[local] Abbreviation shop_options :=
  [ {| defname := "database"; defarg := "/data/shop.db" |} ].
(** A database whose table query answers one table, the column query of
    which does not compile. *)
#[local] Abbreviation odd_db :=
  (fun filename sql : string =>
     if bool_decide (sql = all_tables_query)
     then Some (mkPrepared 1 0 [[text_cell "odd name"]]) else None).

Lemma sqliteImportForeignSchema_one_command_per_table_witness :
  exists w' : world,
    import_items world_start
    = (Ok [table_command (fun name => name) (import_all []) false true "items"
             items_table_info], w') /\
    size (stmts w') = 1.
Proof.
  refine (sqliteImportForeignSchema_one_command_per_table every_file_opens items_db
            (fun _ => Error "not called") (fun name => name) (fun name => name)
            (import_all []) shop_options false true "/data/shop.db"
            (mkPrepared 1 0 [[text_cell "items"]])
            (fun _ => mkPrepared 6 0 items_table_info) world_start
            (or_intror eq_refl) eq_refl eq_refl eq_refl eq_refl _ _).
  - intros row ->%list_elem_of_singleton. reflexivity.
  - intros h [st Hst]. cbn in Hst. by rewrite lookup_empty in Hst.
Defined.

Lemma sqliteImportForeignSchema_unknown_option_witness :
  exists msg : string,
    sqliteImportForeignSchema every_file_opens items_db (fun def => Ok (boolean_of def))
      (fun name => name) (fun name => name)
      (import_all [ {| defname := "import_not_null"; defarg := "false" |};
                    {| defname := "import_defaults"; defarg := "true" |} ])
      shop_options world_start
    = (Error msg, world_start).
Proof.
  refine (sqliteImportForeignSchema_unknown_option every_file_opens items_db
            (fun def => Ok (boolean_of def)) (fun name => name) (fun name => name)
            (import_all [ {| defname := "import_not_null"; defarg := "false" |};
                          {| defname := "import_defaults"; defarg := "true" |} ])
            shop_options {| defname := "import_defaults"; defarg := "true" |}
            world_start _ _ _).
  - cbn. right. left.
  - discriminate.
  - discriminate.
Defined.

Lemma parse_statement_options_last_wins_witness :
  parse_statement_options (fun def => Ok (boolean_of def))
    [ {| defname := "import_default"; defarg := "true" |};
      {| defname := "import_not_null"; defarg := "false" |};
      {| defname := "import_default"; defarg := "false" |} ] false true
  = Ok (false, false).
Proof.
  refine (parse_statement_options_last_wins (fun def => Ok (boolean_of def)) boolean_of
            [ {| defname := "import_default"; defarg := "true" |};
              {| defname := "import_not_null"; defarg := "false" |};
              {| defname := "import_default"; defarg := "false" |} ] _).
  repeat (constructor; [split; [(left; reflexivity) || (right; reflexivity)|reflexivity]|]).
  constructor.
Defined.

Lemma sqliteTranslateType_text_prefix_witness :
  sqliteTranslateType "note " "TEXT(20)" = "note text".
Proof. exact (sqliteTranslateType_text_prefix "note " "TEXT(20)" "(20)" eq_refl). Defined.


Lemma sqliteImportForeignSchema_first_table_failure_witness :
  exists w' : world,
    sqliteImportForeignSchema every_file_opens odd_db
      (fun _ => Error "not called") (fun name => name) (fun name => name)
      (import_all []) shop_options world_start
    = (Error "SQL error during prepare", w') /\
    conns w' = ∅ /\
    stmts w' = ∅.
Proof.
  exact (sqliteImportForeignSchema_first_table_failure every_file_opens odd_db
           (fun _ => Error "not called") (fun name => name) (fun name => name)
           (import_all []) shop_options false true "/data/shop.db"
           (mkPrepared 1 0 [[text_cell "odd name"]]) [text_cell "odd name"] []
           world_start
           (or_intror eq_refl) eq_refl eq_refl eq_refl eq_refl eq_refl eq_refl
           world_ok_start).
Defined.

End ImportWitnesses.
